(** * KEN Library (src/app.py): the store, the command layer and the pages

    The program is a Streamlit script over one SQLite file.  Every user
    interaction re-runs [main]: schema initialisation, seeding of the default
    locations, then the selected page with the current widget values.

    What is modelled and how:
    - Python [str] is a byte string ([string]); case mapping and white space
      are the ASCII ones.
    - The SQLite file is a [DB]: the rows of [sqlite_master] that describe
      user objects, in rowid order, the rows of the four tables of the
      program, and their AUTOINCREMENT counters.  A table that bears one of
      the program's four names has the columns and constraints of the
      program's own CREATE TABLE statement, and an index called
      [idx_books_title_author] is the unique index the import creates.
      Triggers and views are schema objects only: trigger bodies never fire,
      and a statement that reads or writes through a view fails.
    - The engine ([sqlite_execute]) understands exactly the statements the
      program submits, recognised by their text (white space normalised),
      and the DROP statement [_ensure_is_table] assembles.
    - A command is a function from the day's date and the store to a result or
      an exception, the new store, and the trace of what was submitted to the
      engine and shown to the user.  Python's sqlite3 commits DDL at once and
      every failure point of the program precedes the first row change of
      its connection, so the roll-back on exception restores nothing. *)

From Stdlib Require Import ZArith List String Ascii Bool Lia DecimalString.
From Stdlib Require Import DecimalZ Permutation Sorted.
Import ListNotations.
Local Open Scope string_scope.
Local Open Scope Z_scope.

(* ------------------------------------------------------------------ *)
(** ** Python strings *)

Module Py.

(** [str.isspace] on one ASCII character: TAB..CR, FS..US and the space. *)
Definition isspace (c : ascii) : bool :=
  let n := nat_of_ascii c in
  ((9 <=? n) && (n <=? 13) || (28 <=? n) && (n <=? 32))%nat.

Fixpoint lstrip (s : string) : string :=
  match s with
  | String c r => if isspace c then lstrip r else s
  | EmptyString => EmptyString
  end.

Fixpoint rstrip (s : string) : string :=
  match s with
  | EmptyString => EmptyString
  | String c r =>
      match rstrip r with
      | EmptyString => if isspace c then EmptyString else String c EmptyString
      | r' => String c r'
      end
  end.

(** [s.strip()] *)
Definition strip (s : string) : string := rstrip (lstrip s).

Definition lower_char (c : ascii) : ascii :=
  let n := nat_of_ascii c in
  if ((65 <=? n) && (n <=? 90))%nat then ascii_of_nat (n + 32) else c.

Definition upper_char (c : ascii) : ascii :=
  let n := nat_of_ascii c in
  if ((97 <=? n) && (n <=? 122))%nat then ascii_of_nat (n - 32) else c.

Fixpoint map_chars (f : ascii -> ascii) (s : string) : string :=
  match s with
  | EmptyString => EmptyString
  | String c r => String (f c) (map_chars f r)
  end.

(** [s.lower()] and [s.upper()] *)
Definition lower : string -> string := map_chars lower_char.
Definition upper : string -> string := map_chars upper_char.

(** [str(i)] and the [{i}] of an f-string, for an [int]. *)
Definition str_int (z : Z) : string := NilZero.string_of_int (Z.to_int z).

(** [range(a, b)] *)
Definition range (a b : Z) : list Z :=
  map (fun k => a + Z.of_nat k) (seq 0 (Z.to_nat (b - a))).

(** [s.strip(" —")]: the characters stripped are the space and the em dash,
    which UTF-8 writes on three bytes. *)
Definition em_dash : string := "—".

Fixpoint lstrip_dash (fuel : nat) (s : string) : string :=
  match fuel with
  | O => s
  | S k =>
      match s with
      | String " " r => lstrip_dash k r
      | _ => if String.prefix em_dash s
             then lstrip_dash k (substring 3 (String.length s - 3) s)
             else s
      end
  end.

Definition rev_string (s : string) : string :=
  string_of_list_ascii (rev (list_ascii_of_string s)).

Fixpoint rstrip_dash_rev (fuel : nat) (s : string) : string :=
  match fuel with
  | O => s
  | S k =>
      match s with
      | String " " r => rstrip_dash_rev k r
      | _ => if String.prefix (rev_string em_dash) s
             then rstrip_dash_rev k (substring 3 (String.length s - 3) s)
             else s
      end
  end.

Definition strip_space_dash (s : string) : string :=
  let l := lstrip_dash (String.length s) s in
  rev_string (rstrip_dash_rev (String.length l) (rev_string l)).

End Py.

(* ------------------------------------------------------------------ *)
(** ** The store *)

(** A value bound to a placeholder or held in a result column. *)
Inductive value := VNull | VInt (z : Z) | VText (s : string).

(** A result set: column names and rows. *)
Record frame := mkFrame { f_columns : list string; f_rows : list (list value) }.

(** The column [type] of [sqlite_master] takes four values. *)
Inductive kind := KTable | KIndex | KView | KTrigger.

Definition kind_name (k : kind) : string :=
  match k with
  | KTable => "table"
  | KIndex => "index"
  | KView => "view"
  | KTrigger => "trigger"
  end.

Definition kind_eqb (a b : kind) : bool :=
  match a, b with
  | KTable, KTable | KIndex, KIndex | KView, KView | KTrigger, KTrigger => true
  | _, _ => false
  end.

(** A row of [sqlite_master]. *)
Record SchemaObj := mkObj { o_type : kind; o_name : string; o_tbl_name : string }.

Record Book := mkBook {
  book_id : Z;
  book_title : option string;
  book_author : option string;
  book_genre : option string;
  book_default_location : option string;
  book_tags : option string;
  book_notes : option string }.

Record Member := mkMember {
  member_id : Z;
  member_name : option string;
  member_phone : option string;
  member_email : option string }.

Record Location := mkLocation {
  loc_id : Z;
  loc_name : option string;
  loc_description : option string }.

Record Txn := mkTxn {
  txn_id : Z;
  txn_book_id : option Z;
  txn_member_id : option Z;
  txn_issue_date : option string;
  txn_due_date : option string;
  txn_return_date : option string }.

Record DB := mkDB {
  master : list SchemaObj;
  books : list Book;
  members : list Member;
  locations : list Location;
  transactions : list Txn;
  seq_books : Z;
  seq_members : Z;
  seq_locations : Z;
  seq_transactions : Z }.

Definition empty_db : DB := mkDB [] [] [] [] [] 0 0 0 0.

Definition with_master (f : list SchemaObj -> list SchemaObj) (d : DB) : DB :=
  mkDB (f (master d)) (books d) (members d) (locations d) (transactions d)
       (seq_books d) (seq_members d) (seq_locations d) (seq_transactions d).

Definition with_books (l : list Book) (s : Z) (d : DB) : DB :=
  mkDB (master d) l (members d) (locations d) (transactions d)
       s (seq_members d) (seq_locations d) (seq_transactions d).

Definition with_members (l : list Member) (s : Z) (d : DB) : DB :=
  mkDB (master d) (books d) l (locations d) (transactions d)
       (seq_books d) s (seq_locations d) (seq_transactions d).

Definition with_locations (l : list Location) (s : Z) (d : DB) : DB :=
  mkDB (master d) (books d) (members d) l (transactions d)
       (seq_books d) (seq_members d) s (seq_transactions d).

Definition with_transactions (l : list Txn) (s : Z) (d : DB) : DB :=
  mkDB (master d) (books d) (members d) (locations d) l
       (seq_books d) (seq_members d) (seq_locations d) s.

(** An exception, by its message. *)
Definition exn := string.

(* ------------------------------------------------------------------ *)
(** ** Schema objects and names *)

(** SQLite compares object names without regard to (ASCII) case. *)
Definition name_eqb (a b : string) : bool := (Py.lower a =? Py.lower b)%string.

Definition is_kind (kinds : list kind) (o : SchemaObj) : bool :=
  existsb (kind_eqb (o_type o)) kinds.

Definition named (kinds : list kind) (name : string) (o : SchemaObj) : bool :=
  is_kind kinds o && name_eqb (o_name o) name.

(** Tables and views share one name space. *)
Definition resolve (name : string) (d : DB) : option SchemaObj :=
  find (named [KTable; KView] name) (master d).

Definition is_table (name : string) (d : DB) : bool :=
  match resolve name d with
  | Some o => kind_eqb (o_type o) KTable
  | None => false
  end.

Definition has_index (name : string) (d : DB) : bool :=
  existsb (named [KIndex] name) (master d).

Definition has_trigger (name : string) (d : DB) : bool :=
  existsb (named [KTrigger] name) (master d).

(** The tables and indexes of the store, as [sqlite_master] lists them. *)
Definition tables_and_indexes (d : DB) : list SchemaObj :=
  filter (is_kind [KTable; KIndex]) (master d).

(* ------------------------------------------------------------------ *)
(** ** The statements of the program

    Each constant is the SQL literal of src/app.py with runs of white space
    collapsed.  The DROP statement of [_ensure_is_table] is not a literal and
    is assembled where the program assembles it. *)

Module SQL.

Definition pragma_foreign_keys := "PRAGMA foreign_keys = ON".
Definition object_type := "SELECT type FROM sqlite_master WHERE name=?".

Definition create_books :=
  "CREATE TABLE IF NOT EXISTS books( id INTEGER PRIMARY KEY AUTOINCREMENT, title TEXT, author TEXT, genre TEXT, default_location TEXT, tags TEXT, notes TEXT )".
Definition create_members :=
  "CREATE TABLE IF NOT EXISTS members( id INTEGER PRIMARY KEY AUTOINCREMENT, name TEXT, phone TEXT, email TEXT )".
Definition create_locations :=
  "CREATE TABLE IF NOT EXISTS locations( id INTEGER PRIMARY KEY AUTOINCREMENT, name TEXT UNIQUE, description TEXT )".
Definition create_transactions :=
  "CREATE TABLE IF NOT EXISTS transactions( id INTEGER PRIMARY KEY AUTOINCREMENT, book_id INTEGER, member_id INTEGER, issue_date TEXT DEFAULT DATE('now'), due_date TEXT, return_date TEXT, FOREIGN KEY(book_id) REFERENCES books(id) ON DELETE CASCADE, FOREIGN KEY(member_id) REFERENCES members(id) ON DELETE CASCADE )".
Definition create_ix_trans_open :=
  "CREATE INDEX IF NOT EXISTS ix_trans_open ON transactions(book_id) WHERE return_date IS NULL".
Definition create_ix_trans_member :=
  "CREATE INDEX IF NOT EXISTS ix_trans_member ON transactions(member_id)".
Definition create_idx_books_title_author :=
  "CREATE UNIQUE INDEX IF NOT EXISTS idx_books_title_author ON books(title, author)".

Definition insert_location :=
  "INSERT OR IGNORE INTO locations(name, description) VALUES(?, ?)".
Definition insert_book :=
  "INSERT INTO books(title, author, genre, default_location) VALUES(?, ?, ?, ?)".
Definition insert_book_or_ignore :=
  "INSERT OR IGNORE INTO books(title, author, genre, default_location) VALUES(?, ?, ?, ?)".
Definition insert_member :=
  "INSERT INTO members(name, phone, email) VALUES(?, ?, ?)".
Definition insert_transaction :=
  "INSERT INTO transactions(book_id, member_id, issue_date, due_date) VALUES (?, ?, DATE('now'), ?)".
Definition mark_returned :=
  "UPDATE transactions SET return_date = DATE('now') WHERE id = ?".

Definition pick_books :=
  "SELECT id, title, IFNULL(author,'') AS author FROM books ORDER BY title".
Definition pick_members := "SELECT id, name FROM members ORDER BY name".
Definition pick_locations := "SELECT name FROM locations ORDER BY id".
Definition open_issues :=
  "SELECT t.id AS Txn_ID, b.title AS Title, m.name AS Member, t.issue_date AS Issued_On, t.due_date AS Due_On FROM transactions t JOIN books b ON b.id = t.book_id JOIN members m ON m.id = t.member_id WHERE t.return_date IS NULL ORDER BY t.issue_date DESC".
Definition export_books := "SELECT * FROM books ORDER BY title".
Definition export_members := "SELECT * FROM members ORDER BY name".
Definition export_locations := "SELECT * FROM locations ORDER BY id".

(** Queries whose result is only rendered. *)
Definition count_books := "SELECT COUNT(*) AS c FROM books".
Definition count_open :=
  "SELECT COUNT(*) AS c FROM transactions WHERE return_date IS NULL".
Definition count_issues := "SELECT COUNT(*) AS c FROM transactions".
Definition genre_table :=
  "SELECT COALESCE(b.genre,'(Uncategorized)') AS Genre, COUNT(*) AS Titles, SUM( EXISTS(SELECT 1 FROM transactions t WHERE t.book_id=b.id AND t.return_date IS NULL) ) AS Titles_Issued_Now FROM books b GROUP BY b.genre ORDER BY Titles DESC, Genre".
Definition browse_all :=
  "SELECT id, title AS Title, author AS Author, COALESCE(genre,'(Uncategorized)') AS Genre FROM books ORDER BY title".
Definition browse_genre :=
  "SELECT id, title AS Title, author AS Author, COALESCE(genre,'(Uncategorized)') AS Genre FROM books WHERE COALESCE(genre,'(Uncategorized)') = ? ORDER BY title".
Definition history :=
  "SELECT b.title AS Title, m.name AS Member, t.issue_date AS Issued_On, t.due_date AS Due_On, t.return_date AS Returned_On FROM transactions t JOIN books b ON b.id = t.book_id JOIN members m ON m.id = t.member_id ORDER BY t.id DESC LIMIT 200".
Definition list_books :=
  "SELECT id, title, author, genre, default_location FROM books ORDER BY title".
Definition list_members := "SELECT id, name, phone, email FROM members ORDER BY name".
Definition list_locations := "SELECT id, name, description FROM locations ORDER BY id".

(** Every literal the program passes as a statement text. *)
Definition literals : list string :=
  [ pragma_foreign_keys; object_type;
    create_books; create_members; create_locations; create_transactions;
    create_ix_trans_open; create_ix_trans_member; create_idx_books_title_author;
    insert_location; insert_book; insert_book_or_ignore; insert_member;
    insert_transaction; mark_returned;
    pick_books; pick_members; pick_locations; open_issues;
    export_books; export_members; export_locations;
    count_books; count_open; count_issues; genre_table; browse_all;
    browse_genre; history; list_books; list_members; list_locations ].

End SQL.

(** What the engine makes of a statement text. *)
Inductive stmt :=
| PragmaForeignKeys
| SelectObjectType
| CreateTable (name : string)
| CreateTransactions
| CreateIndex (name tbl : string)
| CreateBooksKey
| Drop (kind name : string)
| InsertLocation
| InsertBook (or_ignore : bool)
| InsertMember
| InsertTransaction
| MarkReturned
| PickBooks
| PickMembers
| PickLocations
| OpenIssues
| ExportBooks
| ExportMembers
| ExportLocations.

Definition statements : list (string * stmt) :=
  [ (SQL.pragma_foreign_keys, PragmaForeignKeys);
    (SQL.object_type, SelectObjectType);
    (SQL.create_books, CreateTable "books");
    (SQL.create_members, CreateTable "members");
    (SQL.create_locations, CreateTable "locations");
    (SQL.create_transactions, CreateTransactions);
    (SQL.create_ix_trans_open, CreateIndex "ix_trans_open" "transactions");
    (SQL.create_ix_trans_member, CreateIndex "ix_trans_member" "transactions");
    (SQL.create_idx_books_title_author, CreateBooksKey);
    (SQL.insert_location, InsertLocation);
    (SQL.insert_book, InsertBook false);
    (SQL.insert_book_or_ignore, InsertBook true);
    (SQL.insert_member, InsertMember);
    (SQL.insert_transaction, InsertTransaction);
    (SQL.mark_returned, MarkReturned);
    (SQL.pick_books, PickBooks);
    (SQL.pick_members, PickMembers);
    (SQL.pick_locations, PickLocations);
    (SQL.open_issues, OpenIssues);
    (SQL.export_books, ExportBooks);
    (SQL.export_members, ExportMembers);
    (SQL.export_locations, ExportLocations) ].

(** [DROP <kind> <name>]: the two words after the keyword. *)
Fixpoint split_space (s : string) : string * string :=
  match s with
  | EmptyString => (EmptyString, EmptyString)
  | String " " r => (EmptyString, r)
  | String c r => let (a, b) := split_space r in (String c a, b)
  end.

Definition parse_drop (sql : string) : option stmt :=
  if String.prefix "DROP " sql
  then let (kind, name) := split_space (substring 5 (String.length sql - 5) sql)
       in Some (Drop kind name)
  else None.

Definition parse_sql (sql : string) : option stmt :=
  match find (fun p => (fst p =? sql)%string) statements with
  | Some p => Some (snd p)
  | None => parse_drop sql
  end.

(* ------------------------------------------------------------------ *)
(** ** The engine *)

Definition dquote : string := String (ascii_of_nat 34) EmptyString.

Definition syntax_error (near : string) : exn :=
  "near " ++ dquote ++ near ++ dquote ++ ": syntax error".

Definition opt_eqb (a : option string) (b : string) : bool :=
  match a with
  | Some s => (s =? b)%string
  | None => false
  end.

Definition vtext (o : option string) : value :=
  match o with Some s => VText s | None => VNull end.

(** What a column of type TEXT keeps of a bound value. *)
Definition text_of (v : value) : option string :=
  match v with
  | VNull => None
  | VInt z => Some (Py.str_int z)
  | VText s => Some s
  end.

(** ORDER BY compares NULL below numbers below text, and text byte-wise.
    Rows that compare equal keep the order of the table (SQLite leaves that
    order unspecified). *)
Definition value_ltb (a b : value) : bool :=
  match a, b with
  | VNull, VNull => false
  | VNull, _ => true
  | VInt _, VNull => false
  | VInt x, VInt y => x <? y
  | VInt _, VText _ => true
  | VText x, VText y => String.ltb x y
  | VText _, _ => false
  end.

Fixpoint insert_by {A} (lt : A -> A -> bool) (x : A) (l : list A) : list A :=
  match l with
  | [] => [x]
  | y :: r => if lt y x then y :: insert_by lt x r else x :: y :: r
  end.

Definition order_by {A} (key : A -> value) (desc : bool) (l : list A) : list A :=
  fold_right
    (insert_by (fun a b => if desc then value_ltb (key b) (key a)
                           else value_ltb (key a) (key b)))
    [] l.

(** The next AUTOINCREMENT rowid: above every rowid the table holds and every
    rowid it ever issued. *)
Definition next_rowid (seq : Z) (ids : list Z) : Z :=
  Z.max seq (fold_right Z.max 0 ids) + 1.

Definition not_writable (name : string) (d : DB) : option exn :=
  match resolve name d with
  | None => Some ("no such table: " ++ name)
  | Some o => if kind_eqb (o_type o) KTable then None
              else Some ("cannot modify " ++ name ++ " because it is a view")
  end.

(** CREATE TABLE IF NOT EXISTS, for a statement the parser accepts. *)
Definition create_table (name : string) (d : DB) : exn + DB :=
  match resolve name d with
  | Some _ => inr d
  | None =>
      if has_index name d
      then inl ("there is already an index named " ++ name)
      else inr (with_master (fun m => m ++ [mkObj KTable name name])%list d)
  end.

(** The CREATE TABLE statement of [transactions] gives its column
    [issue_date] the default [DATE('now')] without the parentheses that
    SQLite requires around a default expression: the parser rejects the
    statement, after the name check that the opening of the statement
    triggers. *)
Definition create_transactions (d : DB) : exn + DB :=
  match resolve "transactions" d with
  | None =>
      if has_index "transactions" d
      then inl "there is already an index named transactions"
      else inl (syntax_error "(")
  | Some _ => inl (syntax_error "(")
  end.

(** CREATE INDEX IF NOT EXISTS name ON tbl(...) *)
Definition create_index (name tbl : string) (d : DB) : exn + DB :=
  match resolve tbl d with
  | None => inl ("no such table: main." ++ tbl)
  | Some o =>
      if kind_eqb (o_type o) KView then inl "views may not be indexed"
      else match resolve name d with
           | Some _ => inl ("there is already a table named " ++ name)
           | None =>
               if has_index name d then inr d
               else inr (with_master
                           (fun m => m ++ [mkObj KIndex name (o_name o)])%list d)
           end
  end.

(** A row collides with the key (title, author) when both are non-null and
    some row holds the same pair. *)
Definition key_taken (t a : option string) (rows : list Book) : bool :=
  match t, a with
  | Some t, Some a =>
      existsb (fun b => opt_eqb (book_title b) t && opt_eqb (book_author b) a) rows
  | _, _ => false
  end.

Fixpoint duplicate_keys (rows : list Book) : bool :=
  match rows with
  | [] => false
  | b :: r => key_taken (book_title b) (book_author b) r || duplicate_keys r
  end.

Definition books_key : string := "idx_books_title_author".

(** CREATE UNIQUE INDEX IF NOT EXISTS idx_books_title_author ON books(title, author) *)
Definition create_books_key (d : DB) : exn + DB :=
  match resolve "books" d with
  | None => inl "no such table: main.books"
  | Some o =>
      if kind_eqb (o_type o) KView then inl "views may not be indexed"
      else match resolve books_key d with
           | Some _ => inl ("there is already a table named " ++ books_key)
           | None =>
               if has_index books_key d then inr d
               else if duplicate_keys (books d)
               then inl "UNIQUE constraint failed: books.title, books.author"
               else inr (with_master
                           (fun m => m ++ [mkObj KIndex books_key (o_name o)])%list d)
           end
  end.

Definition is_alpha (c : ascii) : bool :=
  let n := nat_of_ascii c in
  ((65 <=? n) && (n <=? 90) || (97 <=? n) && (n <=? 122) || (n =? 95))%nat.

Definition is_digit (c : ascii) : bool :=
  let n := nat_of_ascii c in ((48 <=? n) && (n <=? 57))%nat.

Fixpoint all_chars (p : ascii -> bool) (s : string) : bool :=
  match s with
  | EmptyString => true
  | String c r => p c && all_chars p r
  end.

(** An unquoted name (reserved words apart). *)
Definition identifier (s : string) : bool :=
  match s with
  | EmptyString => false
  | String c r => is_alpha c && all_chars (fun x => is_alpha x || is_digit x) r
  end.

Definition clear_rows (name : string) (d : DB) : DB :=
  if name_eqb name "books" then with_books [] 0 d
  else if name_eqb name "members" then with_members [] 0 d
  else if name_eqb name "locations" then with_locations [] 0 d
  else if name_eqb name "transactions" then with_transactions [] 0 d
  else d.

(** The objects that go with the table or view they are attached to. *)
Definition attached (kinds : list kind) (name : string) (o : SchemaObj) : bool :=
  is_kind kinds o && name_eqb (o_tbl_name o) name.

(** DROP kind name.  (DROP TABLE runs no foreign-key action here: the only
    connection the program drops on never enables them.) *)
Definition drop (kind name : string) (d : DB) : exn + DB :=
  if negb (identifier name) then inl (syntax_error name)
  else if name_eqb kind "VIEW" then
    match resolve name d with
    | None => inl ("no such view: " ++ name)
    | Some o =>
        if kind_eqb (o_type o) KView
        then inr (with_master
                    (filter (fun x => negb (named [KView] name x)
                                      && negb (attached [KTrigger] name x))) d)
        else inl ("use DROP TABLE to delete table " ++ name)
    end
  else if name_eqb kind "INDEX" then
    if has_index name d
    then inr (with_master (filter (fun x => negb (named [KIndex] name x))) d)
    else inl ("no such index: " ++ name)
  else if name_eqb kind "TRIGGER" then
    if has_trigger name d
    then inr (with_master (filter (fun x => negb (named [KTrigger] name x))) d)
    else inl ("no such trigger: " ++ name)
  else if name_eqb kind "TABLE" then
    match resolve name d with
    | None => inl ("no such table: " ++ name)
    | Some o =>
        if kind_eqb (o_type o) KTable
        then inr (clear_rows name
                    (with_master
                       (filter (fun x => negb (named [KTable] name x)
                                         && negb (attached [KIndex; KTrigger] name x))) d))
        else inl ("use DROP VIEW to delete view " ++ name)
    end
  else inl (syntax_error kind).

(** INSERT OR IGNORE INTO locations(name, description): the column [name] is
    UNIQUE.  A row that is ignored has still drawn a rowid. *)
Definition name_taken (n : option string) (rows : list Location) : bool :=
  match n with
  | Some s => existsb (fun l => opt_eqb (loc_name l) s) rows
  | None => false
  end.

Definition insert_location (n ds : option string) (d : DB) : exn + (DB * Z) :=
  match not_writable "locations" d with
  | Some e => inl e
  | None =>
      let id := next_rowid (seq_locations d) (map loc_id (locations d)) in
      if name_taken n (locations d)
      then inr (with_locations (locations d) id d, 0)
      else inr (with_locations (locations d ++ [mkLocation id n ds]) id d, id)
  end.

(** INSERT [OR IGNORE] INTO books(title, author, genre, default_location) *)
Definition insert_book (or_ignore : bool) (t a g l : option string) (d : DB)
  : exn + (DB * Z) :=
  match not_writable "books" d with
  | Some e => inl e
  | None =>
      let id := next_rowid (seq_books d) (map book_id (books d)) in
      if has_index books_key d && key_taken t a (books d)
      then if or_ignore
           then inr (with_books (books d) id d, 0)
           else inl "UNIQUE constraint failed: books.title, books.author"
      else inr (with_books (books d ++ [mkBook id t a g l None None]) id d, id)
  end.

(** INSERT INTO members(name, phone, email) *)
Definition insert_member (n p e : option string) (d : DB) : exn + (DB * Z) :=
  match not_writable "members" d with
  | Some e => inl e
  | None =>
      let id := next_rowid (seq_members d) (map member_id (members d)) in
      inr (with_members (members d ++ [mkMember id n p e]) id d, id)
  end.

Definition references (key : option Z) (ids : list Z) : bool :=
  match key with
  | Some k => existsb (Z.eqb k) ids
  | None => true
  end.

(** INSERT INTO transactions(book_id, member_id, issue_date, due_date)
    VALUES (?, ?, DATE('now'), ?).  With foreign keys enabled both parent
    tables must exist and a non-null key must name a parent row. *)
Definition insert_transaction (today : string) (fk : bool)
    (b m : option Z) (due : option string) (d : DB) : exn + (DB * Z) :=
  match not_writable "transactions" d with
  | Some e => inl e
  | None =>
      if fk && negb (is_table "books" d) then inl "no such table: main.books"
      else if fk && negb (is_table "members" d) then inl "no such table: main.members"
      else if fk && negb (references b (map book_id (books d))
                          && references m (map member_id (members d)))
      then inl "FOREIGN KEY constraint failed"
      else
        let id := next_rowid (seq_transactions d) (map txn_id (transactions d)) in
        inr (with_transactions
               (transactions d ++ [mkTxn id b m (Some today) due None]) id d, id)
  end.

Definition set_return_date (day : string) (t : Txn) : Txn :=
  mkTxn (txn_id t) (txn_book_id t) (txn_member_id t) (txn_issue_date t)
        (txn_due_date t) (Some day).

Definition key_is (key : option Z) (id : Z) : bool :=
  match key with Some k => k =? id | None => false end.

(** UPDATE transactions SET return_date = DATE('now') WHERE id = ?
    (a null parameter equals no id). *)
Definition mark_returned (today : string) (id : option Z) (d : DB) : exn + DB :=
  match not_writable "transactions" d with
  | Some e => inl e
  | None =>
      inr (with_transactions
             (map (fun t => if key_is id (txn_id t) then set_return_date today t else t)
                  (transactions d))
             (seq_transactions d) d)
  end.

(** *** Queries *)

Definition vint (o : option Z) : value :=
  match o with Some z => VInt z | None => VNull end.

Definition ifnull (o : option string) (dflt : string) : string :=
  match o with Some s => s | None => dflt end.

Fixpoint not_readable (names : list string) (d : DB) : option exn :=
  match names with
  | [] => None
  | n :: r => if is_table n d then not_readable r d
              else Some ("no such table: " ++ n)
  end.

Definition object_types (name : value) (d : DB) : frame :=
  mkFrame ["type"]
    (match name with
     | VText n =>
         map (fun o => [VText (kind_name (o_type o))])
             (filter (fun o => (o_name o =? n)%string) (master d))
     | _ => []
     end).

Definition pick_books (d : DB) : frame :=
  mkFrame ["id"; "title"; "author"]
    (map (fun b => [VInt (book_id b); vtext (book_title b);
                    VText (ifnull (book_author b) "")])
         (order_by (fun b => vtext (book_title b)) false (books d))).

Definition pick_members (d : DB) : frame :=
  mkFrame ["id"; "name"]
    (map (fun m => [VInt (member_id m); vtext (member_name m)])
         (order_by (fun m => vtext (member_name m)) false (members d))).

Definition pick_locations (d : DB) : frame :=
  mkFrame ["name"]
    (map (fun l => [vtext (loc_name l)])
         (order_by (fun l => VInt (loc_id l)) false (locations d))).

Definition is_open (t : Txn) : bool :=
  match txn_return_date t with None => true | Some _ => false end.

(** The open transactions joined with their book and their member. *)
Definition open_join (d : DB) : list (Txn * Book * Member) :=
  flat_map
    (fun t =>
       flat_map
         (fun b =>
            map (fun m => (t, b, m))
                (filter (fun m => key_is (txn_member_id t) (member_id m)) (members d)))
         (filter (fun b => key_is (txn_book_id t) (book_id b)) (books d)))
    (filter is_open (transactions d)).

Definition open_issues (d : DB) : frame :=
  mkFrame ["Txn_ID"; "Title"; "Member"; "Issued_On"; "Due_On"]
    (map (fun r => match r with
                   | (t, b, m) =>
                       [VInt (txn_id t); vtext (book_title b); vtext (member_name m);
                        vtext (txn_issue_date t); vtext (txn_due_date t)]
                   end)
         (order_by (fun r => vtext (txn_issue_date (fst (fst r)))) true (open_join d))).

Definition export_books (d : DB) : frame :=
  mkFrame ["id"; "title"; "author"; "genre"; "default_location"; "tags"; "notes"]
    (map (fun b => [VInt (book_id b); vtext (book_title b); vtext (book_author b);
                    vtext (book_genre b); vtext (book_default_location b);
                    vtext (book_tags b); vtext (book_notes b)])
         (order_by (fun b => vtext (book_title b)) false (books d))).

Definition export_members (d : DB) : frame :=
  mkFrame ["id"; "name"; "phone"; "email"]
    (map (fun m => [VInt (member_id m); vtext (member_name m);
                    vtext (member_phone m); vtext (member_email m)])
         (order_by (fun m => vtext (member_name m)) false (members d))).

Definition export_locations (d : DB) : frame :=
  mkFrame ["id"; "name"; "description"]
    (map (fun l => [VInt (loc_id l); vtext (loc_name l); vtext (loc_description l)])
         (order_by (fun l => VInt (loc_id l)) false (locations d))).

(** *** One call of [execute] *)

(** What the cursor holds after the call: the result set, and [lastrowid]
    (0 on a fresh connection that inserted nothing). *)
Record cursor := mkCursor { c_rows : frame; c_lastrowid : Z }.

Definition no_rows : frame := mkFrame [] [].

Definition done (r : exn + DB) : exn + (DB * cursor) :=
  match r with
  | inl e => inl e
  | inr d => inr (d, mkCursor no_rows 0)
  end.

Definition inserted (r : exn + (DB * Z)) : exn + (DB * cursor) :=
  match r with
  | inl e => inl e
  | inr (d, id) => inr (d, mkCursor no_rows id)
  end.

Definition selected (tables : list string) (f : DB -> frame) (d : DB)
  : exn + (DB * cursor) :=
  match not_readable tables d with
  | Some e => inl e
  | None => inr (d, mkCursor (f d) 0)
  end.

Definition bindings_error : exn := "Incorrect number of bindings supplied".
Definition binding_type_error : exn := "unsupported binding for an integer column".

(** A key bound to an INTEGER column: the program binds [int] or [None]. *)
Definition int_of (v : value) : exn + option Z :=
  match v with
  | VNull => inr None
  | VInt z => inr (Some z)
  | VText _ => inl binding_type_error
  end.

Definition exec_stmt (today : string) (fk : bool) (st : stmt)
    (params : list value) (d : DB) : exn + (DB * cursor) :=
  match st, params with
  | PragmaForeignKeys, [] => done (inr d)
  | SelectObjectType, [n] => selected [] (object_types n) d
  | CreateTable name, [] => done (create_table name d)
  | CreateTransactions, [] => done (create_transactions d)
  | CreateIndex name tbl, [] => done (create_index name tbl d)
  | CreateBooksKey, [] => done (create_books_key d)
  | Drop kind name, [] => done (drop kind name d)
  | InsertLocation, [n; ds] => inserted (insert_location (text_of n) (text_of ds) d)
  | InsertBook ign, [t; a; g; l] =>
      inserted (insert_book ign (text_of t) (text_of a) (text_of g) (text_of l) d)
  | InsertMember, [n; p; e] =>
      inserted (insert_member (text_of n) (text_of p) (text_of e) d)
  | InsertTransaction, [b; m; due] =>
      match int_of b, int_of m with
      | inr b', inr m' => inserted (insert_transaction today fk b' m' (text_of due) d)
      | inl e, _ => inl e
      | _, inl e => inl e
      end
  | MarkReturned, [id] =>
      match int_of id with
      | inr id' => done (mark_returned today id' d)
      | inl e => inl e
      end
  | PickBooks, [] => selected ["books"] pick_books d
  | PickMembers, [] => selected ["members"] pick_members d
  | PickLocations, [] => selected ["locations"] pick_locations d
  | OpenIssues, [] => selected ["transactions"; "books"; "members"] open_issues d
  | ExportBooks, [] => selected ["books"] export_books d
  | ExportMembers, [] => selected ["members"] export_members d
  | ExportLocations, [] => selected ["locations"] export_locations d
  | _, _ => inl bindings_error
  end.

Definition sqlite_execute (today : string) (fk : bool) (sql : string)
    (params : list value) (d : DB) : exn + (DB * cursor) :=
  match parse_sql sql with
  | Some st => exec_stmt today fk st params d
  | None => inl (syntax_error sql)
  end.

(* ------------------------------------------------------------------ *)
(** ** Commands *)

(** What a run leaves behind besides the store: the statements submitted to
    the engine, with their bound parameters, and what the page showed. *)
Inductive event :=
| Submitted (sql : string) (params : list value)
| Success (text : string)
| Error (text : string)
| Info (text : string)
| Download (file_name : string) (data : frame).

Record out (A : Type) := mkOut { result : exn + A; store : DB; trace : list event }.
Arguments mkOut {A}.
Arguments result {A}.
Arguments store {A}.
Arguments trace {A}.

(** A command reads the day's date ([DATE('now')]) and the store. *)
Definition M (A : Type) : Type := string -> DB -> out A.

Definition ret {A} (a : A) : M A := fun _ d => mkOut (inr a) d [].

Definition bind {A B} (m : M A) (k : A -> M B) : M B :=
  fun today d =>
    let o := m today d in
    match result o with
    | inl e => mkOut (inl e) (store o) (trace o)
    | inr a =>
        let o' := k a today (store o) in
        mkOut (result o') (store o') (trace o ++ trace o')
    end.

Definition raise {A} (e : exn) : M A := fun _ d => mkOut (inl e) d [].

Definition emit (e : event) : M unit := fun _ d => mkOut (inr tt) d [e].

Notation "x <- m ;; k" := (bind m (fun x => k))
  (at level 61, m at next level, right associativity).
Notation "m ;; k" := (bind m (fun _ => k))
  (at level 61, right associativity).

Fixpoint for_each {A} (f : A -> M unit) (l : list A) : M unit :=
  match l with
  | [] => ret tt
  | x :: r => f x ;; for_each f r
  end.

Definition when (b : bool) (m : M unit) : M unit := if b then m else ret tt.

(** A connection, by the one setting the program touches. *)
Record conn := mkConn { foreign_keys : bool }.

(** [sqlite3.connect(DB_PATH)] *)
Definition connect : M conn := ret (mkConn false).

(** [cur.execute(sql, params)] *)
Definition execute (con : conn) (sql : string) (params : list value) : M cursor :=
  fun today d =>
    match sqlite_execute today (foreign_keys con) sql params d with
    | inl e => mkOut (inl e) d [Submitted sql params]
    | inr (d', c) => mkOut (inr c) d' [Submitted sql params]
    end.

(** [cur.executemany(sql, rows)] *)
Definition executemany (con : conn) (sql : string) (rows : list (list value)) : M unit :=
  for_each (fun r => _ <- execute con sql r ;; ret tt) rows.

Definition st_success (text : string) : M unit := emit (Success text).
Definition st_error (text : string) : M unit := emit (Error text).
Definition st_info (text : string) : M unit := emit (Info text).

(* ------------------------------------------------------------------ *)
(** ** tiny DB helpers *)

Definition get_conn : M conn :=
  con <- connect ;;
  _ <- execute con SQL.pragma_foreign_keys [] ;;
  ret (mkConn true).

Definition fetch_df (sql : string) (params : list value) : M frame :=
  con <- get_conn ;;
  cur <- execute con sql params ;;
  ret (c_rows cur).

(** [fetch_df] for a result that is only rendered: the rows are not
    modelled.  Such a query could only fail by aborting the rest of the run,
    and no page writes after one, so the store is the same either way. *)
Definition fetch_df_shown (sql : string) (params : list value) : M unit :=
  _ <- get_conn ;;
  emit (Submitted sql params).

Definition run_sql (sql : string) (params : list value) : M Z :=
  con <- get_conn ;;
  cur <- execute con sql params ;;
  ret (c_lastrowid cur).

Definition _object_type (name : string) : M (option string) :=
  con <- connect ;;
  c <- execute con SQL.object_type [VText name] ;;
  ret (match f_rows (c_rows c) with
       | (VText t :: _) :: _ => Some t
       | _ => None
       end).

Definition _ensure_is_table (name : string) : M unit :=
  t <- _object_type name ;;
  match t with
  | Some t =>
      if negb (t =? "")%string && negb (t =? "table")%string
      then con <- connect ;;
           _ <- execute con ("DROP " ++ Py.upper t ++ " " ++ name) [] ;;
           ret tt
      else ret tt
  | None => ret tt
  end.

(** ** schema + repair *)

Definition init_db : M unit :=
  con <- get_conn ;;
  _ <- execute con SQL.create_books [] ;;
  _ <- execute con SQL.create_members [] ;;
  _ <- execute con SQL.create_locations [] ;;
  _ensure_is_table "transactions" ;;
  _ <- execute con SQL.create_transactions [] ;;
  _ <- execute con SQL.create_ix_trans_open [] ;;
  _ <- execute con SQL.create_ix_trans_member [] ;;
  ret tt.

Definition ensure_default_locations (n : Z) : M unit :=
  con <- get_conn ;;
  _ <- execute con SQL.create_locations [] ;;
  for_each
    (fun i => _ <- execute con SQL.insert_location
                     [VText ("Compartment " ++ Py.str_int i);
                      VText ("Shelf compartment #" ++ Py.str_int i)] ;;
              ret tt)
    (Py.range 1 (n + 1)).

(* ------------------------------------------------------------------ *)
(** ** UI helpers *)

(** [st.selectbox(label, options)]: the user's pick is the [k]-th option
    (the first one when [k] is out of range). *)
Definition selectbox {A} (dflt : A) (options : list A) (k : nat) : A :=
  nth k options (hd dflt options).

(** [str(v)], also the [{v}] of an f-string. *)
Definition py_str (v : value) : string :=
  match v with
  | VNull => "None"
  | VInt z => Py.str_int z
  | VText s => s
  end.

Definition value_eqb (a b : value) : bool :=
  match a, b with
  | VNull, VNull => true
  | VInt x, VInt y => x =? y
  | VText x, VText y => (x =? y)%string
  | _, _ => false
  end.

(** [options.index(pick)] *)
Fixpoint index_of {A} (eqb : A -> A -> bool) (x : A) (l : list A) : option nat :=
  match l with
  | [] => None
  | y :: r => if eqb y x then Some O
              else match index_of eqb x r with
                   | Some i => Some (S i)
                   | None => None
                   end
  end.

(** [df[name]] for the column at position [i]. *)
Definition column (i : nat) (rows : list (list value)) : list value :=
  map (fun r => nth i r VNull) rows.

Definition book_label (r : list value) : string :=
  Py.strip_space_dash (py_str (nth 1 r VNull) ++ " — " ++ py_str (nth 2 r VNull)).

Definition select_book (k : nat) : M (option (Z * value)) :=
  df <- fetch_df SQL.pick_books [] ;;
  match f_rows df with
  | [] =>
      st_info "No books yet. Import or add some on the **Books** page." ;;
      ret None
  | rows =>
      let options := map book_label rows in
      let pick := selectbox "" options k in
      match index_of String.eqb pick options with
      | None => raise "ValueError"
      | Some idx =>
          match nth idx rows [] with
          | VInt id :: title :: _ => ret (Some (id, title))
          | _ => raise "TypeError"
          end
      end
  end.

Definition select_member (k : nat) : M (option (Z * value)) :=
  df <- fetch_df SQL.pick_members [] ;;
  match f_rows df with
  | [] =>
      st_info "No members yet. Import or add some on the **Members** page." ;;
      ret None
  | rows =>
      let options := column 1 rows in
      let pick := selectbox VNull options k in
      match index_of value_eqb pick options with
      | None => raise "ValueError"
      | Some idx =>
          match nth idx rows [] with
          | VInt id :: _ => ret (Some (id, nth idx options VNull))
          | _ => raise "TypeError"
          end
      end
  end.

Definition select_location (k : nat) (allow_empty : bool) : M value :=
  df <- fetch_df SQL.pick_locations [] ;;
  let opts := column 0 (f_rows df) in
  let opts := if allow_empty then VText "" :: opts else opts in
  ret (selectbox VNull opts k).

(* ------------------------------------------------------------------ *)
(** ** pages *)

Definition page_dashboard (pick : string) : M unit :=
  fetch_df_shown SQL.count_books [] ;;
  fetch_df_shown SQL.count_open [] ;;
  fetch_df_shown SQL.count_issues [] ;;
  fetch_df_shown SQL.genre_table [] ;;
  if (pick =? "(All)")%string
  then fetch_df_shown SQL.browse_all []
  else fetch_df_shown SQL.browse_genre [VText pick].

(** [due] is the ISO rendering of the date picked, if any; [issue] and
    [mark] tell which button the run was triggered by. *)
Definition page_issue_return (book_k member_k : nat) (due : option string)
    (issue : bool) (chosen_k : nat) (mark : bool) : M unit :=
  book <- select_book book_k ;;
  member <- select_member member_k ;;
  match book, member with
  | Some (book_id, book_title), Some (member_id, member_name) =>
      when issue
        (_ <- run_sql SQL.insert_transaction
                [VInt book_id; VInt member_id; vtext due] ;;
         st_success ("Issued **" ++ py_str book_title ++ "** to **"
                     ++ py_str member_name ++ "** ✅"))
  | _, _ => ret tt
  end ;;
  open_df <- fetch_df SQL.open_issues [] ;;
  match f_rows open_df with
  | [] => ret tt
  | rows =>
      let chosen := selectbox VNull (column 0 rows) chosen_k in
      when mark
        match chosen with
        | VInt id =>
            _ <- run_sql SQL.mark_returned [VInt id] ;;
            st_success "Marked as returned ✔️"
        | _ => raise "TypeError"
        end
  end ;;
  fetch_df_shown SQL.history [].

Definition page_books (title author genre : string) (location_k : nat)
    (add : bool) : M unit :=
  default_loc <- select_location location_k true ;;
  when (add && negb (Py.strip title =? "")%string)
    (_ <- run_sql SQL.insert_book
            [VText (Py.strip title); VText (Py.strip author);
             VText (Py.strip genre); default_loc] ;;
     st_success "Book added.") ;;
  fetch_df_shown SQL.list_books [].

Definition page_members (name phone email : string) (add : bool) : M unit :=
  when (add && negb (Py.strip name =? "")%string)
    (_ <- run_sql SQL.insert_member
            [VText (Py.strip name); VText (Py.strip phone); VText (Py.strip email)] ;;
     st_success "Member added.") ;;
  fetch_df_shown SQL.list_members [].

Definition page_locations (name desc : string) (add : bool) : M unit :=
  when (add && negb (Py.strip name =? "")%string)
    (_ <- run_sql SQL.insert_location
            [VText (Py.strip name); VText (Py.strip desc)] ;;
     st_success "Location added.") ;;
  fetch_df_shown SQL.list_locations [].

(* ------------------------------------------------------------------ *)
(** ** CSV import and export *)

(** A cell of the frame [pd.read_csv] returns, as a row of [iterrows] holds
    it: text, a missing value, or a number or boolean, given by the text that
    [str] returns for it. *)
Inductive cell := CStr (s : string) | CNaN | CNum (repr : string).

Definition str_cell (c : cell) : string :=
  match c with
  | CStr s => s
  | CNaN => "nan"
  | CNum r => r
  end.

(** An uploaded file, once [pd.read_csv] has parsed it. *)
Record DataFrame := mkDF { df_columns : list string; df_rows : list (list cell) }.

(** A [dict] from [str] to [str], in insertion order. *)
Definition dict := list (string * string).

Fixpoint dict_set (d : dict) (k v : string) : dict :=
  match d with
  | [] => [(k, v)]
  | (k', v') :: r => if (k' =? k)%string then (k, v) :: r
                     else (k', v') :: dict_set r k v
  end.

Fixpoint dict_get (d : dict) (k : string) : option string :=
  match d with
  | [] => None
  | (k', v) :: r => if (k' =? k)%string then Some v else dict_get r k
  end.

Definition keys (d : dict) : list string := map fst d.

(** [{c.lower(): c for c in df.columns}] *)
Definition lower_columns (columns : list string) : dict :=
  fold_left (fun d c => dict_set d (Py.lower c) c) columns [].

(** [needed.issubset(set(cols.keys()))] *)
Definition issubset (needed have : list string) : bool :=
  forallb (fun n => existsb (String.eqb n) have) needed.

(** [{cols.get(c, c): c for c in cols}] *)
Definition renaming (cols : dict) : dict :=
  fold_left (fun d c => dict_set d (match dict_get cols c with
                                    | Some v => v
                                    | None => c
                                    end) c)
            (keys cols) [].

(** [df.rename(columns=mapping)] *)
Definition rename (mapping : dict) (df : DataFrame) : DataFrame :=
  mkDF (map (fun c => match dict_get mapping c with
                      | Some n => n
                      | None => c
                      end) (df_columns df))
       (df_rows df).

(** The cells of a row under the columns that bear a label. *)
Fixpoint labelled (label : string) (columns : list string) (row : list cell)
  : list cell :=
  match columns, row with
  | c :: cs, x :: xs =>
      if (c =? label)%string then x :: labelled label cs xs
      else labelled label cs xs
  | _, _ => []
  end.

Section Pages.

(** [str] of the Series that [r.get] returns when several columns bear the
    label; pandas' rendering of a Series is not modelled. *)
Variable series_str : list cell -> string.

(** [str(r.get(label, ""))] *)
Definition str_get (label : string) (columns : list string) (row : list cell)
  : string :=
  match labelled label columns row with
  | [] => ""
  | [x] => str_cell x
  | xs => series_str xs
  end.

(** The tuples the import builds, one per row, for the given labels. *)
Definition import_rows (labels : list string) (df : DataFrame)
  : list (list value) :=
  map (fun r => map (fun l => VText (Py.strip (str_get l (df_columns df) r))) labels)
      (df_rows df).

Definition import_books (up_books : option DataFrame) : M unit :=
  match up_books with
  | None => ret tt
  | Some df =>
      let needed := ["title"; "author"; "genre"; "default_location"] in
      let cols := lower_columns (df_columns df) in
      if negb (issubset needed (keys cols))
      then st_error "Books CSV missing required columns."
      else
        let df := rename (renaming cols) df in
        let rows := import_rows ["title"; "author"; "genre"; "default_location"] df in
        con <- get_conn ;;
        _ <- execute con SQL.create_idx_books_title_author [] ;;
        executemany con SQL.insert_book_or_ignore rows ;;
        st_success ("Imported " ++ Py.str_int (Z.of_nat (List.length rows))
                    ++ " books (existing titles skipped).")
  end.

Definition import_members (up_members : option DataFrame) : M unit :=
  match up_members with
  | None => ret tt
  | Some df =>
      let needed := ["name"; "phone"; "email"] in
      let cols := lower_columns (df_columns df) in
      if negb (issubset needed (keys cols))
      then st_error "Members CSV missing required columns."
      else
        let df := rename (renaming cols) df in
        let rows := import_rows ["name"; "phone"; "email"] df in
        con <- get_conn ;;
        executemany con SQL.insert_member rows ;;
        st_success ("Imported " ++ Py.str_int (Z.of_nat (List.length rows))
                    ++ " members.")
  end.

Definition import_locations (up_locations : option DataFrame) : M unit :=
  match up_locations with
  | None => ret tt
  | Some df =>
      let needed := ["name"; "description"] in
      let cols := lower_columns (df_columns df) in
      if negb (issubset needed (keys cols))
      then st_error "Locations CSV missing required columns."
      else
        let df := rename (renaming cols) df in
        let rows := import_rows ["name"; "description"] df in
        con <- get_conn ;;
        executemany con SQL.insert_location rows ;;
        st_success ("Imported " ++ Py.str_int (Z.of_nat (List.length rows))
                    ++ " locations (duplicates ignored).")
  end.

(** One export button: the frame whose CSV text is offered for download. *)
Definition export (clicked : bool) (sql file_name : string) : M unit :=
  when clicked (df <- fetch_df sql [] ;; emit (Download file_name df)).

Definition page_import_export (repair : bool)
    (up_books up_members up_locations : option DataFrame)
    (export_books export_members export_locations : bool) : M unit :=
  when repair
    (init_db ;; ensure_default_locations 45 ;; st_success "Repair done.") ;;
  import_books up_books ;;
  import_members up_members ;;
  import_locations up_locations ;;
  export export_books SQL.export_books "books.csv" ;;
  export export_members SQL.export_members "members.csv" ;;
  export export_locations SQL.export_locations "locations.csv".

(* ------------------------------------------------------------------ *)
(** ** main *)

(** The page picked in the side bar, with the state of its widgets. *)
Inductive Page :=
| Dashboard (pick : string)
| IssueReturn (book_k member_k : nat) (due : option string) (issue : bool)
              (chosen_k : nat) (mark : bool)
| Books (title author genre : string) (location_k : nat) (add : bool)
| Members (name phone email : string) (add : bool)
| Locations (name desc : string) (add : bool)
| ImportExport (repair : bool)
               (up_books up_members up_locations : option DataFrame)
               (export_books export_members export_locations : bool).

Definition show (p : Page) : M unit :=
  match p with
  | Dashboard pick => page_dashboard pick
  | IssueReturn b m due issue c mark => page_issue_return b m due issue c mark
  | Books t a g l add => page_books t a g l add
  | Members n p e add => page_members n p e add
  | Locations n ds add => page_locations n ds add
  | ImportExport r ub um ul eb em el => page_import_export r ub um ul eb em el
  end.

Definition main (p : Page) : M unit :=
  init_db ;;
  ensure_default_locations 45 ;;
  show p.

End Pages.

(* ------------------------------------------------------------------ *)
(** * Vocabulary of the statements *)

(** The entry points of the program: a run of the script, or one of its
    functions called on its own. *)
Inductive Op :=
| Run (p : Page)
| InitDb
| Seed (n : Z)
| Show (p : Page).

Definition run_op (series_str : list cell -> string) (op : Op) : M unit :=
  match op with
  | Run p => main series_str p
  | InitDb => init_db
  | Seed n => ensure_default_locations n
  | Show p => show series_str p
  end.

(** The store after a sequence of operations, each on its day. *)
Fixpoint run_all (series_str : list cell -> string) (ops : list (string * Op))
    (d : DB) : DB :=
  match ops with
  | [] => d
  | (today, op) :: r => run_all series_str r (store (run_op series_str op today d))
  end.

(** [m], started on [d], relates [d] to the store and trace it ends with. *)
Definition sat_at {A} (R : string -> DB -> DB -> list event -> Prop) (m : M A)
    (today : string) (d : DB) : Prop :=
  R today d (store (m today d)) (trace (m today d)).

Definition sat {A} (R : string -> DB -> DB -> list event -> Prop) (m : M A) : Prop :=
  forall today d, sat_at R m today d.

(** The part of [page_issue_return] that follows the query of the open
    issues. *)
Definition mark_chosen (rows : list (list value)) (chosen_k : nat) (mark : bool)
  : M unit :=
  match rows with
  | [] => ret tt
  | rows =>
      let chosen := selectbox VNull (column 0 rows) chosen_k in
      when mark
        match chosen with
        | VInt id =>
            _ <- run_sql SQL.mark_returned [VInt id] ;;
            st_success "Marked as returned ✔️"
        | _ => raise "TypeError"
        end
  end.

(** The first object that bears exactly the name. *)
Definition first_named (name : string) (d : DB) : option SchemaObj :=
  hd_error (filter (fun o => (o_name o =? name)%string) (master d)).

(** The kind that [_ensure_is_table "transactions"] drops, if any. *)
Definition dropped_kind (d : DB) : option kind :=
  match first_named "transactions" d with
  | Some o => if kind_eqb (o_type o) KTable then None else Some (o_type o)
  | None => None
  end.

Definition drop_sql (k : kind) : string :=
  "DROP " ++ Py.upper (kind_name k) ++ " transactions".

(** A statement whose text is a literal of the program, or the DROP that
    [_ensure_is_table] assembles from the type it read. *)
Definition assembled_drop (sql : string) : Prop :=
  exists k, k <> KTable /\ sql = "DROP " ++ Py.upper (kind_name k) ++ " transactions".

Definition fixed_text (e : event) : Prop :=
  match e with
  | Submitted sql params => In sql SQL.literals \/ (assembled_drop sql /\ params = [])
  | _ => True
  end.

Definition texts_fixed (today : string) (d d' : DB) (t : list event) : Prop :=
  Forall fixed_text t.

Definition store_with_view : DB :=
  mkDB [mkObj KView "transactions" "transactions"] [] [] [] [] 0 0 0 0.

Definition store_with_index : DB :=
  mkDB [mkObj KTable "x" "x"; mkObj KIndex "transactions" "x"] [] [] [] [] 0 0 0 0.

(** The texts a run submitted, in order. *)
Definition texts (t : list event) : list string :=
  flat_map (fun e => match e with Submitted sql _ => [sql] | _ => [] end) t.

Definition after_ensure (d : DB) : DB :=
  match dropped_kind d with
  | Some k =>
      match drop (Py.upper (kind_name k)) "transactions" d with
      | inr d' => d'
      | inl _ => d
      end
  | None => d
  end.

Definition schema_after (d : DB) : DB :=
  match create_table "books" d with
  | inl _ => d
  | inr d1 =>
      match create_table "members" d1 with
      | inl _ => d1
      | inr d2 =>
          match create_table "locations" d2 with
          | inl _ => d2
          | inr d3 => after_ensure d3
          end
      end
  end.

(** What [DROP k transactions] removes. *)
Definition removed_by (k : kind) (x : SchemaObj) : bool :=
  named [k] "transactions" x
  || kind_eqb k KView && attached [KTrigger] "transactions" x.

Definition app_tables : list string := ["books"; "members"; "locations"].


(** The objects that bear exactly a name, as [_object_type] looks them up. *)
Definition named_exactly (name : string) (d : DB) : list SchemaObj :=
  filter (fun o => (o_name o =? name)%string) (master d).

(** A trigger and an index that both bear the name of [transactions]. *)
Definition store_with_trigger_and_index : DB :=
  mkDB [mkObj KTable "x" "x";
        mkObj KTrigger "transactions" "x";
        mkObj KIndex "transactions" "x"] [] [] [] [] 0 0 0 0.









(** The three uploads of the import page. *)
Inductive Upload := UBooks | UMembers | ULocations.

Definition import_file (series_str : list cell -> string) (u : Upload)
    (df : DataFrame) : M unit :=
  match u with
  | UBooks => import_books series_str (Some df)
  | UMembers => import_members series_str (Some df)
  | ULocations => import_locations series_str (Some df)
  end.

Definition required (u : Upload) : list string :=
  match u with
  | UBooks => ["title"; "author"; "genre"; "default_location"]
  | UMembers => ["name"; "phone"; "email"]
  | ULocations => ["name"; "description"]
  end.

Definition missing_message (u : Upload) : string :=
  match u with
  | UBooks => "Books CSV missing required columns."
  | UMembers => "Members CSV missing required columns."
  | ULocations => "Locations CSV missing required columns."
  end.

(** Some required column is the lower-case form of no column of the file. *)
Definition lacks_column (needed : list string) (df : DataFrame) : Prop :=
  exists n, In n needed /\ forall c, In c (df_columns df) -> Py.lower c <> n.




(** What [pd.read_csv] makes of a field that [df.to_csv(index=False)] wrote
    (pandas' defaults).  NULL and the empty string are both written as an
    empty field, and an empty field is read as a missing value.  An integer
    reads back as a number.  Any other text is taken to read back as it was
    written: that is so when pandas keeps the column as text and the text is
    not one of its markers of a missing value. *)
Definition read_back (v : value) : cell :=
  match v with
  | VNull => CNaN
  | VInt z => CNum (Py.str_int z)
  | VText s => if (s =? "")%string then CNaN else CStr s
  end.

(** The frame [pd.read_csv] returns for the text of an exported frame: the
    header row gives the column names back. *)
Definition to_csv_read_csv (f : frame) : DataFrame :=
  mkDF (f_columns f) (map (map read_back) (f_rows f)).

(** A book added through the form with its author left blank. *)
Definition store_with_dune : DB :=
  store (page_books "Dune" "" "" 0 true "2026-11-03"
           (store (init_db "2026-11-03" empty_db))).

Definition dune : Book :=
  mkBook 1 (Some "Dune") (Some "") (Some "") (Some "") None None.




(** Statements that leave the rows of [transactions] alone or append one. *)
Definition quiet (st : stmt) : bool :=
  match st with
  | Drop _ _ | MarkReturned => false
  | _ => true
  end.


(** A store with the four tables, one book and one member. *)
Definition small_library : DB :=
  mkDB [mkObj KTable "books" "books"; mkObj KTable "members" "members";
        mkObj KTable "locations" "locations";
        mkObj KTable "transactions" "transactions"]
       [mkBook 1 (Some "Dune") (Some "Herbert") (Some "") (Some "") None None]
       [mkMember 1 (Some "Ann") (Some "") (Some "")]
       [mkLocation 1 (Some "Shelf A") (Some "by the door")]
       [] 1 1 1 0.

(** The statements that the literals of the program denote. *)
Definition issued (st : stmt) : bool :=
  match st with
  | CreateTable name => existsb (String.eqb name) app_tables
  | Drop _ _ => false
  | _ => true
  end.

(** No table and no view bears the name of [transactions]. *)
Definition lacks_transactions (today : string) (d d' : DB) (t : list event) : Prop :=
  resolve "transactions" d = None ->
  resolve "transactions" d' = None /\ transactions d' = transactions d.

(** [l'] is [l] with rows added at its end. *)
Definition extends {A} (l l' : list A) : Prop := exists added, l' = (l ++ added)%list.

(** What was recorded when a book was issued: all of the row but its return
    date. *)
Definition issue_of (t : Txn)
  : Z * option Z * option Z * option string * option string :=
  (txn_id t, txn_book_id t, txn_member_id t, txn_issue_date t, txn_due_date t).

(** The rows of [d] are still in [d'], in place and as they were, up to the
    return date of a transaction. *)
Definition append_only (today : string) (d d' : DB) (t : list event) : Prop :=
  extends (books d) (books d') /\ extends (members d) (members d')
  /\ extends (locations d) (locations d')
  /\ extends (map issue_of (transactions d)) (map issue_of (transactions d')).



(** A store with one transaction, returned on the second of November. *)
Definition library_with_return : DB :=
  with_transactions
    [mkTxn 1 (Some 1) (Some 1) (Some "2026-11-01") None (Some "2026-11-02")] 1
    small_library.



(** The book entered twice through the form. *)
Definition library_with_duplicate : DB :=
  store (page_books "Dune" "Herbert" "" 0 true "2026-11-03" small_library).

(** A books file with one row. *)
Definition one_book_file : DataFrame :=
  mkDF ["Title"; "Author"; "Genre"; "Default_Location"]
       [[CStr "Emma"; CStr "Austen"; CStr "Novel"; CStr "Shelf A"]].






(** A locations file: a name that is there, a new one, and the new one again. *)
Definition three_locations_file : DataFrame :=
  mkDF ["NAME"; "Description"]
       [[CStr "Shelf A"; CStr "moved"];
        [CStr "Shelf B"; CStr "by the window"];
        [CStr " Shelf B"; CStr "again"]].

(** The file with its header in lower case. *)
Definition lower_header (df : DataFrame) : DataFrame :=
  mkDF (map Py.lower (df_columns df)) (df_rows df).






(** The statements of the program that only read: the PRAGMA and the
    SELECTs. *)
Definition queries : list string :=
  [ SQL.pragma_foreign_keys; SQL.object_type;
    SQL.pick_books; SQL.pick_members; SQL.pick_locations; SQL.open_issues;
    SQL.export_books; SQL.export_members; SQL.export_locations;
    SQL.count_books; SQL.count_open; SQL.count_issues; SQL.genre_table;
    SQL.browse_all; SQL.browse_genre; SQL.history;
    SQL.list_books; SQL.list_members; SQL.list_locations ].

Definition reading (st : stmt) : bool :=
  match st with
  | PragmaForeignKeys | SelectObjectType | PickBooks | PickMembers | PickLocations
  | OpenIssues | ExportBooks | ExportMembers | ExportLocations => true
  | _ => false
  end.

Definition reads (e : event) : Prop :=
  match e with
  | Submitted sql _ => In sql queries
  | _ => True
  end.

(** The run left the store as it was and submitted nothing but queries. *)
Definition only_reads (today : string) (d d' : DB) (t : list event) : Prop :=
  d' = d /\ Forall reads t.

Definition no_upload (u : option DataFrame) : bool :=
  match u with None => true | Some _ => false end.

(** A page shown with no button pressed and no file uploaded, the export
    buttons apart. *)
Definition browsing (p : Page) : bool :=
  match p with
  | Dashboard _ => true
  | IssueReturn _ _ _ issue _ mark => negb issue && negb mark
  | Books _ _ _ _ add => negb add
  | Members _ _ _ add => negb add
  | Locations _ _ add => negb add
  | ImportExport repair up_books up_members up_locations _ _ _ =>
      negb repair && no_upload up_books && no_upload up_members
      && no_upload up_locations
  end.


(** A store with a book and a member, and two open transactions. *)
Definition library_with_issues : DB :=
  with_transactions
    [mkTxn 1 (Some 1) (Some 1) (Some "2026-11-01") None None;
     mkTxn 2 (Some 1) (Some 1) (Some "2026-11-02") (Some "2026-11-20") None] 2
    small_library.

(** A store with the four tables and no row. *)
Definition empty_library : DB :=
  mkDB [mkObj KTable "books" "books"; mkObj KTable "members" "members";
        mkObj KTable "locations" "locations";
        mkObj KTable "transactions" "transactions"] [] [] [] [] 0 0 0 0.

(** An event that is a statement submitted to the engine. *)
Definition submitted (e : event) : Prop :=
  match e with
  | Submitted _ _ => True
  | _ => False
  end.

(** The names of the locations, the rows without a name left out. *)
Definition location_names (d : DB) : list string :=
  flat_map (fun l => match loc_name l with Some s => [s] | None => [] end)
           (locations d).

(** No two locations bear the same name. *)
Definition names_unique (today : string) (d d' : DB) (t : list event) : Prop :=
  NoDup (location_names d) -> NoDup (location_names d').



(** Every transaction refers to a book and to a member that are there (a
    null reference refers to nothing). *)
Definition referenced (d : DB) (t : Txn) : Prop :=
  references (txn_book_id t) (map book_id (books d)) = true
  /\ references (txn_member_id t) (map member_id (members d)) = true.

Definition no_dangling (d : DB) : Prop := Forall (referenced d) (transactions d).

Definition references_kept (today : string) (d d' : DB) (t : list event) : Prop :=
  no_dangling d -> no_dangling d'.

(** The statements whose parameters the pages choose among the rows shown. *)
Definition chosen_among_rows (sql : string) : Prop :=
  sql = SQL.insert_transaction \/ sql = SQL.mark_returned.

(** A store with a view whose name is that of [transactions] in another
    case. *)
Definition store_with_view_in_capitals : DB :=
  mkDB [mkObj KView "Transactions" "Transactions"] [] [] [] [] 0 0 0 0.



(* ------------------------------------------------------------------ *)
(** * Theorems *)

(** ** Running a command step by step *)

Lemma bind_out {A B} (m : M A) (k : A -> M B) today d :
  bind m k today d =
  match result (m today d) with
  | inl e => mkOut (inl e) (store (m today d)) (trace (m today d))
  | inr a =>
      mkOut (result (k a today (store (m today d))))
            (store (k a today (store (m today d))))
            (trace (m today d) ++ trace (k a today (store (m today d))))
  end.
Proof. reflexivity. Qed.

Lemma ret_bind {A B} (a : A) (k : A -> M B) today d :
  bind (ret a) k today d = k a today d.
Proof. unfold bind, ret. simpl. destruct (k a today d). reflexivity. Qed.

Ltac out := cbn [result store trace foreign_keys].

(** Run the first command of a sequence, given what it evaluates to. *)
Ltac run_with E := rewrite bind_out; rewrite E; out.

Lemma execute_eq con sql params today d st :
  parse_sql sql = Some st ->
  execute con sql params today d =
  match exec_stmt today (foreign_keys con) st params d with
  | inl e => mkOut (inl e) d [Submitted sql params]
  | inr (d', c) => mkOut (inr c) d' [Submitted sql params]
  end.
Proof. intros H. unfold execute, sqlite_execute. rewrite H. reflexivity. Qed.

Ltac run_execute st :=
  rewrite bind_out;
  rewrite (execute_eq _ _ _ _ _ st) by reflexivity;
  cbn [exec_stmt]; unfold done, inserted, selected.

Lemma get_conn_eq today d :
  get_conn today d = mkOut (inr (mkConn true)) d [Submitted SQL.pragma_foreign_keys []].
Proof.
  unfold get_conn, connect. rewrite ret_bind.
  run_execute PragmaForeignKeys. out. reflexivity.
Qed.

Lemma object_type_eq name today d :
  _object_type name today d =
  mkOut (inr (option_map (fun o => kind_name (o_type o)) (first_named name d)))
        d [Submitted SQL.object_type [VText name]].
Proof.
  unfold _object_type, connect. rewrite ret_bind.
  run_execute SelectObjectType. cbn [not_readable]. out.
  unfold ret, first_named, object_types. cbn [f_rows c_rows].
  destruct (filter _ (master d)) as [| o r]; reflexivity.
Qed.

Lemma kind_name_table k : (kind_name k =? "table")%string = kind_eqb k KTable.
Proof. destruct k; reflexivity. Qed.

Lemma kind_name_nonempty k : (kind_name k =? "")%string = false.
Proof. destruct k; reflexivity. Qed.

Lemma parse_drop_kind k :
  parse_sql (drop_sql k) = Some (Drop (Py.upper (kind_name k)) "transactions").
Proof. destruct k; reflexivity. Qed.

(** [_ensure_is_table "transactions"], in one piece. *)
Lemma ensure_is_table_eq today d :
  _ensure_is_table "transactions" today d =
  match dropped_kind d with
  | None => mkOut (inr tt) d [Submitted SQL.object_type [VText "transactions"]]
  | Some k =>
      match drop (Py.upper (kind_name k)) "transactions" d with
      | inl e => mkOut (inl e) d
                   [Submitted SQL.object_type [VText "transactions"];
                    Submitted (drop_sql k) []]
      | inr d' => mkOut (inr tt) d'
                   [Submitted SQL.object_type [VText "transactions"];
                    Submitted (drop_sql k) []]
      end
  end.
Proof.
  unfold _ensure_is_table. run_with object_type_eq.
  unfold dropped_kind.
  destruct (first_named "transactions" d) as [o |]; cbn [option_map];
    [| reflexivity].
  rewrite kind_name_nonempty, kind_name_table. cbn [negb andb].
  destruct (kind_eqb (o_type o) KTable) eqn:Hk; cbn [negb]; [reflexivity |].
  unfold connect. rewrite ret_bind.
  fold (drop_sql (o_type o)).
  rewrite bind_out, (execute_eq _ _ _ _ _ _ (parse_drop_kind (o_type o))). out.
  change (exec_stmt today false (Drop (Py.upper (kind_name (o_type o))) "transactions") [] d)
    with (done (drop (Py.upper (kind_name (o_type o))) "transactions" d)).
  unfold done. destruct (drop _ _ d); reflexivity.
Qed.

Lemma dropped_kind_not_table d k : dropped_kind d = Some k -> k <> KTable.
Proof.
  unfold dropped_kind. destruct (first_named _ d) as [o |]; [| discriminate].
  destruct (kind_eqb (o_type o) KTable) eqn:Hk; [discriminate |].
  intros H. injection H as <-. intros E. rewrite E in Hk. discriminate.
Qed.

(** ** Relations that every command of the program preserves *)

Section Frame.

Variable R : string -> DB -> DB -> list event -> Prop.
Hypothesis R_refl : forall today d, R today d d [].
Hypothesis R_trans : forall today d d1 d2 t1 t2,
  R today d d1 t1 -> R today d1 d2 t2 -> R today d d2 (t1 ++ t2).

Lemma sat_ret {A} (a : A) : sat R (ret a).
Proof. intros today d. apply R_refl. Qed.

Lemma sat_raise {A} (e : exn) : sat R (@raise A e).
Proof. intros today d. apply R_refl. Qed.

(** The continuation is only run on what the first command returned. *)
Lemma sat_bind_at {A B} (m : M A) (k : A -> M B) :
  sat R m ->
  (forall today d a, result (m today d) = inr a ->
                     sat_at R (k a) today (store (m today d))) ->
  sat R (bind m k).
Proof.
  intros Hm Hk today d. unfold sat_at. rewrite bind_out.
  specialize (Hm today d). specialize (Hk today d). unfold sat_at in *.
  destruct (result (m today d)) as [e | a]; out.
  - exact Hm.
  - eapply R_trans; [exact Hm | apply Hk; reflexivity].
Qed.

Lemma sat_bind {A B} (m : M A) (k : A -> M B) :
  sat R m -> (forall a, sat R (k a)) -> sat R (bind m k).
Proof. intros Hm Hk. apply sat_bind_at; [exact Hm |]. intros. apply Hk. Qed.

Lemma sat_for_each {A} (f : A -> M unit) (l : list A) :
  (forall x, sat R (f x)) -> sat R (for_each f l).
Proof.
  intros Hf. induction l as [| x r IH]; simpl.
  - apply sat_ret.
  - apply sat_bind; [apply Hf | intros _; exact IH].
Qed.

Lemma sat_when (b : bool) (m : M unit) : sat R m -> sat R (when b m).
Proof. intros Hm. destruct b; simpl; [exact Hm | apply sat_ret]. Qed.

(** The statement texts the relation accepts, and what it asks of the rest. *)
Variable accepted : string -> Prop.
Hypothesis R_execute : forall con sql params,
  accepted sql -> sat R (execute con sql params).
Hypothesis R_shown : forall sql params,
  accepted sql -> sat R (emit (Submitted sql params)).
Hypothesis R_success : forall text, sat R (emit (Success text)).
Hypothesis R_error : forall text, sat R (emit (Error text)).
Hypothesis R_info : forall text, sat R (emit (Info text)).
Hypothesis R_download : forall file f, sat R (emit (Download file f)).
Hypothesis R_ensure : sat R (_ensure_is_table "transactions").
Hypothesis R_mark : forall today d f chosen_k mark,
  result (fetch_df SQL.open_issues [] today d) = inr f ->
  sat_at R (mark_chosen (f_rows f) chosen_k mark) today
         (store (fetch_df SQL.open_issues [] today d)).
Hypothesis accepts : forall sql,
  In sql SQL.literals -> sql <> SQL.mark_returned -> accepted sql.

Ltac accepted_literal :=
  solve [ assumption
        | apply accepts;
          [ unfold SQL.literals; repeat (first [left; reflexivity | right])
          | discriminate ] ].

Ltac frame_step :=
  match goal with
  | |- sat _ (bind _ _) => apply sat_bind; [ | intros ]
  | |- sat _ (ret _) => apply sat_ret
  | |- sat _ (raise _) => apply sat_raise
  | |- sat _ (when _ _) => apply sat_when
  | |- sat _ (for_each _ _) => apply sat_for_each; intros
  | |- sat _ (executemany _ _ _) => apply sat_for_each; intros
  | |- sat _ (execute _ _ _) => apply R_execute; accepted_literal
  | |- sat _ (emit (Submitted _ _)) => apply R_shown; accepted_literal
  | |- sat _ (st_success _) => apply R_success
  | |- sat _ (st_error _) => apply R_error
  | |- sat _ (st_info _) => apply R_info
  | |- sat _ (emit (Download _ _)) => apply R_download
  | |- sat _ connect => apply sat_ret
  | |- sat _ (match ?x with _ => _ end) => destruct x
  | |- sat _ (let _ := _ in _) => cbv zeta
  end.

Lemma sat_get_conn : sat R get_conn.
Proof. unfold get_conn. repeat frame_step. Qed.

Lemma sat_fetch_df sql params : accepted sql -> sat R (fetch_df sql params).
Proof. intros H. unfold fetch_df. repeat frame_step. apply sat_get_conn. Qed.

Lemma sat_fetch_df_shown sql params :
  accepted sql -> sat R (fetch_df_shown sql params).
Proof. intros H. unfold fetch_df_shown. repeat frame_step. apply sat_get_conn. Qed.

Lemma sat_run_sql sql params : accepted sql -> sat R (run_sql sql params).
Proof. intros H. unfold run_sql. repeat frame_step. apply sat_get_conn. Qed.

Ltac frame :=
  repeat first
    [ frame_step
    | apply sat_get_conn
    | apply sat_fetch_df; accepted_literal
    | apply sat_fetch_df_shown; accepted_literal
    | apply sat_run_sql; accepted_literal
    | apply R_ensure ].

Lemma sat_init_db : sat R init_db.
Proof. unfold init_db. frame. Qed.

Lemma sat_ensure_default_locations n : sat R (ensure_default_locations n).
Proof. unfold ensure_default_locations. frame. Qed.

Lemma sat_select_book k : sat R (select_book k).
Proof. unfold select_book. frame. Qed.

Lemma sat_select_member k : sat R (select_member k).
Proof. unfold select_member. frame. Qed.

Lemma sat_select_location k b : sat R (select_location k b).
Proof. unfold select_location. frame. Qed.

Lemma sat_import_books ss up : sat R (import_books ss up).
Proof. unfold import_books. frame. Qed.

Lemma sat_import_members ss up : sat R (import_members ss up).
Proof. unfold import_members. frame. Qed.

Lemma sat_import_locations ss up : sat R (import_locations ss up).
Proof. unfold import_locations. frame. Qed.

Lemma sat_page_issue_return b m due issue c mark :
  sat R (page_issue_return b m due issue c mark).
Proof.
  unfold page_issue_return.
  apply sat_bind; [apply sat_select_book | intros book].
  apply sat_bind; [apply sat_select_member | intros member].
  apply sat_bind; [frame |]. intros _.
  apply sat_bind_at; [frame |]. intros today d f Hf.
  pose proof (R_mark today d f c mark Hf) as Hm.
  set (d1 := store (fetch_df SQL.open_issues [] today d)) in *.
  unfold sat_at in *. rewrite bind_out. unfold mark_chosen in Hm.
  destruct (f_rows f) as [| x l].
  - destruct (result (ret tt today d1)); out; [exact Hm |].
    eapply R_trans; [exact Hm |].
    apply sat_fetch_df_shown. accepted_literal.
  - match goal with
    | |- context [result (?blk today d1)] =>
        destruct (result (blk today d1)); out
    end; [exact Hm |].
    eapply R_trans; [exact Hm |].
    apply sat_fetch_df_shown. accepted_literal.
Qed.

Lemma sat_show ss p : sat R (show ss p).
Proof.
  destruct p; cbn [show].
  - unfold page_dashboard. frame.
  - apply sat_page_issue_return.
  - unfold page_books. frame. apply sat_select_location.
  - unfold page_members. frame.
  - unfold page_locations. frame.
  - unfold page_import_export, export. frame;
      first [ apply sat_init_db | apply sat_ensure_default_locations
            | apply sat_import_books | apply sat_import_members
            | apply sat_import_locations ].
Qed.

Lemma sat_run_op ss op : sat R (run_op ss op).
Proof.
  destruct op; cbn [run_op].
  - unfold main. frame;
      first [apply sat_init_db | apply sat_ensure_default_locations | apply sat_show].
  - apply sat_init_db.
  - apply sat_ensure_default_locations.
  - apply sat_show.
Qed.

End Frame.

(** ** Statement texts *)

Lemma texts_fixed_refl today d : texts_fixed today d d [].
Proof. constructor. Qed.

Lemma texts_fixed_trans today d d1 d2 t1 t2 :
  texts_fixed today d d1 t1 -> texts_fixed today d1 d2 t2 ->
  texts_fixed today d d2 (t1 ++ t2).
Proof. unfold texts_fixed. intros. apply Forall_app. split; assumption. Qed.

Lemma texts_fixed_execute con sql params :
  In sql SQL.literals -> sat texts_fixed (execute con sql params).
Proof.
  intros H today d. unfold sat_at, execute, texts_fixed.
  destruct (sqlite_execute _ _ _ _ _) as [e | [d' c]]; out;
    (constructor; [left; exact H | constructor]).
Qed.

Lemma texts_fixed_emit e : fixed_text e -> sat texts_fixed (emit e).
Proof. intros H today d. unfold sat_at. simpl. constructor; [exact H | constructor]. Qed.

Lemma texts_fixed_ensure : sat texts_fixed (_ensure_is_table "transactions").
Proof.
  intros today d. unfold sat_at. rewrite ensure_is_table_eq. unfold texts_fixed.
  assert (fixed_text (Submitted SQL.object_type [VText "transactions"])) as Hs.
  { left. unfold SQL.literals. right. left. reflexivity. }
  destruct (dropped_kind d) as [k |] eqn:Hk.
  - assert (fixed_text (Submitted (drop_sql k) [])) as Hd.
    { right. split; [| reflexivity]. exists k. split; [| reflexivity].
      eapply dropped_kind_not_table; eauto. }
    destruct (drop _ _ d); out;
      (constructor; [exact Hs | constructor; [exact Hd | constructor]]).
  - out. constructor; [exact Hs | constructor].
Qed.

Lemma texts_fixed_mark today d f chosen_k mark :
  result (fetch_df SQL.open_issues [] today d) = inr f ->
  sat_at texts_fixed (mark_chosen (f_rows f) chosen_k mark) today
         (store (fetch_df SQL.open_issues [] today d)).
Proof.
  intros _. generalize (store (fetch_df SQL.open_issues [] today d)).
  revert today. change (sat texts_fixed (mark_chosen (f_rows f) chosen_k mark)).
  unfold mark_chosen. destruct (f_rows f) as [| x l].
  - apply (sat_ret _ texts_fixed_refl).
  - cbv zeta. apply (sat_when _ texts_fixed_refl).
    destruct (selectbox VNull (column 0 (x :: l)) chosen_k);
      try apply (sat_raise _ texts_fixed_refl).
    apply (sat_bind _ texts_fixed_trans).
    + unfold run_sql.
      apply (sat_bind _ texts_fixed_trans).
      * intros today' d'. unfold sat_at. rewrite get_conn_eq. out.
        constructor; [| constructor]. left. unfold SQL.literals. left. reflexivity.
      * intros con. apply (sat_bind _ texts_fixed_trans).
        -- apply texts_fixed_execute. unfold SQL.literals.
           repeat (first [left; reflexivity | right]).
        -- intros. apply (sat_ret _ texts_fixed_refl).
    + intros. apply texts_fixed_emit. exact I.
Qed.

(** C1. Every statement text that an entry point of the program submits is
    one of the program's SQL literals, the runtime values being bound to its
    placeholders, except the DROP statement of [_ensure_is_table]: its text is
    assembled from the object type read in [sqlite_master] (never [table]) and
    the name [transactions], and it binds nothing. *)
Theorem statement_texts series_str op today d :
  Forall fixed_text (trace (run_op series_str op today d)).
Proof.
  apply (sat_run_op texts_fixed texts_fixed_refl texts_fixed_trans
           (fun sql => In sql SQL.literals)).
  - apply texts_fixed_execute.
  - intros sql params H. apply texts_fixed_emit. left. exact H.
  - intros. apply texts_fixed_emit. exact I.
  - intros. apply texts_fixed_emit. exact I.
  - intros. apply texts_fixed_emit. exact I.
  - intros. apply texts_fixed_emit. exact I.
  - apply texts_fixed_ensure.
  - apply texts_fixed_mark.
  - intros sql H _. exact H.
Qed.

(** C1, at two stores: the same call submits two different texts, and neither
    is a literal of the program. *)
Lemma drop_text_varies :
  texts (trace (_ensure_is_table "transactions" "2026-11-03" store_with_view))
    = [SQL.object_type; "DROP VIEW transactions"]
  /\ texts (trace (_ensure_is_table "transactions" "2026-11-03" store_with_index))
    = [SQL.object_type; "DROP INDEX transactions"]
  /\ ~ In "DROP VIEW transactions" SQL.literals
  /\ ~ In "DROP INDEX transactions" SQL.literals.
Proof.
  split; [vm_compute; reflexivity |]. split; [vm_compute; reflexivity |].
  split; intros H; unfold SQL.literals in H; simpl in H;
    repeat (destruct H as [H | H]; [discriminate |]); exact H.
Qed.

Lemma create_transactions_fails d : exists e, create_transactions d = inl e.
Proof.
  unfold create_transactions.
  destruct (resolve "transactions" d); [eauto |].
  destruct (has_index "transactions" d); eauto.
Qed.

Lemma init_db_eq today d :
  exists e t, init_db today d = mkOut (inl e) (schema_after d) t.
Proof.
  unfold init_db, schema_after.
  run_with get_conn_eq.
  run_execute (CreateTable "books").
  destruct (create_table "books" d) as [e | d1]; out; [eauto |].
  run_execute (CreateTable "members").
  destruct (create_table "members" d1) as [e | d2]; out; [eauto |].
  run_execute (CreateTable "locations").
  destruct (create_table "locations" d2) as [e | d3]; out; [eauto |].
  run_with ensure_is_table_eq. unfold after_ensure.
  destruct (dropped_kind d3) as [k |]; out.
  - destruct (drop _ _ d3) as [e | d4]; out; [eauto |].
    run_execute CreateTransactions.
    destruct (create_transactions_fails d4) as [e ->]. out. eauto.
  - run_execute CreateTransactions.
    destruct (create_transactions_fails d3) as [e ->]. out. eauto.
Qed.

(** *** Lists *)

Lemma find_app_some {A} (p : A -> bool) l1 l2 x :
  find p l1 = Some x -> find p (l1 ++ l2) = Some x.
Proof.
  induction l1 as [| y r IH]; simpl; [discriminate |].
  destruct (p y); auto.
Qed.

Lemma find_app_none {A} (p : A -> bool) l1 l2 :
  find p l1 = None -> find p (l1 ++ l2) = find p l2.
Proof.
  induction l1 as [| y r IH]; simpl; [reflexivity |].
  destruct (p y); [discriminate | auto].
Qed.

Lemma find_filter_keep {A} (p q : A -> bool) l :
  (forall x, p x = true -> q x = true) -> find p (filter q l) = find p l.
Proof.
  intros H. induction l as [| y r IH]; simpl; [reflexivity |].
  destruct (q y) eqn:Hq; simpl.
  - destruct (p y); auto.
  - destruct (p y) eqn:Hp; [| exact IH].
    rewrite (H _ Hp) in Hq. discriminate.
Qed.


(** *** Creating a table *)

Lemma resolve_create n m d d' :
  create_table m d = inr d' ->
  forall o, resolve n d = Some o -> resolve n d' = Some o.
Proof.
  unfold create_table. intros H o Ho.
  destruct (resolve m d).
  - injection H as <-. exact Ho.
  - destruct (has_index m d); [discriminate |].
    injection H as <-. unfold resolve, with_master. simpl.
    apply find_app_some. exact Ho.
Qed.

Lemma name_eqb_refl n : name_eqb n n = true.
Proof. unfold name_eqb. apply String.eqb_refl. Qed.

Lemma create_table_resolves n d d' :
  create_table n d = inr d' ->
  (exists o, resolve n d' = Some o) /\
  (resolve n d = None -> is_table n d' = true).
Proof.
  unfold create_table. intros H.
  destruct (resolve n d) as [o |] eqn:Hr.
  - injection H as <-. split; [eauto | discriminate].
  - destruct (has_index n d); [discriminate |].
    injection H as <-.
    assert (resolve n (with_master (fun m => m ++ [mkObj KTable n n])%list d)
            = Some (mkObj KTable n n)) as E.
    { unfold resolve, with_master. simpl. unfold resolve in Hr.
      rewrite (find_app_none _ _ _ Hr). simpl.
      unfold named. simpl. rewrite name_eqb_refl. reflexivity. }
    split; [eauto |]. intros _. unfold is_table. rewrite E. reflexivity.
Qed.

Lemma create_table_rows n d d' :
  create_table n d = inr d' ->
  books d' = books d /\ members d' = members d /\ locations d' = locations d
  /\ transactions d' = transactions d
  /\ seq_books d' = seq_books d /\ seq_members d' = seq_members d
  /\ seq_locations d' = seq_locations d
  /\ seq_transactions d' = seq_transactions d.
Proof.
  unfold create_table. intros H.
  destruct (resolve n d).
  - injection H as <-. repeat split.
  - destruct (has_index n d); [discriminate |]. injection H as <-.
    repeat split.
Qed.

Lemma create_table_master n d d' :
  create_table n d = inr d' ->
  master d' = master d \/ master d' = (master d ++ [mkObj KTable n n])%list.
Proof.
  unfold create_table. intros H.
  destruct (resolve n d).
  - injection H as <-. left. reflexivity.
  - destruct (has_index n d); [discriminate |]. injection H as <-.
    right. reflexivity.
Qed.

Lemma create_table_again n d o :
  resolve n d = Some o -> create_table n d = inr d.
Proof. unfold create_table. intros ->. reflexivity. Qed.


(** *** Dropping the object that bears the name of [transactions] *)

Lemma drop_kind k d d' :
  k <> KTable ->
  drop (Py.upper (kind_name k)) "transactions" d = inr d' ->
  d' = with_master (filter (fun x => negb (removed_by k x))) d.
Proof.
  intros Hk H. destruct k; [congruence | | |].
  - change (drop (Py.upper (kind_name KIndex)) "transactions" d)
      with (if has_index "transactions" d
            then inr (with_master
                        (filter (fun x => negb (named [KIndex] "transactions" x))) d)
            else inl ("no such index: " ++ "transactions")) in H.
    destruct (has_index "transactions" d); [| discriminate].
    injection H as <-. unfold with_master. f_equal.
    apply filter_ext. intros x. unfold removed_by. simpl.
    rewrite orb_false_r. reflexivity.
  - change (drop (Py.upper (kind_name KView)) "transactions" d)
      with (match resolve "transactions" d with
            | None => inl ("no such view: " ++ "transactions")
            | Some o =>
                if kind_eqb (o_type o) KView
                then inr (with_master
                            (filter (fun x => negb (named [KView] "transactions" x)
                                        && negb (attached [KTrigger] "transactions" x))) d)
                else inl ("use DROP TABLE to delete table " ++ "transactions")
            end) in H.
    destruct (resolve "transactions" d) as [o |]; [| discriminate].
    destruct (kind_eqb (o_type o) KView); [| discriminate].
    injection H as <-. unfold with_master. f_equal.
    apply filter_ext. intros x. unfold removed_by. simpl.
    rewrite negb_orb. reflexivity.
  - change (drop (Py.upper (kind_name KTrigger)) "transactions" d)
      with (if has_trigger "transactions" d
            then inr (with_master
                        (filter (fun x => negb (named [KTrigger] "transactions" x))) d)
            else inl ("no such trigger: " ++ "transactions")) in H.
    destruct (has_trigger "transactions" d); [| discriminate].
    injection H as <-. unfold with_master. f_equal.
    apply filter_ext. intros x. unfold removed_by. simpl.
    rewrite orb_false_r. reflexivity.
Qed.


(** The store after [_ensure_is_table "transactions"]. *)
Lemma after_ensure_cases d :
  after_ensure d = d \/
  exists k, k <> KTable /\ dropped_kind d = Some k /\
            after_ensure d = with_master (filter (fun x => negb (removed_by k x))) d.
Proof.
  unfold after_ensure.
  destruct (dropped_kind d) as [k |] eqn:Hk; [| left; reflexivity].
  destruct (drop _ _ d) as [e | d'] eqn:Hd; [left; reflexivity |].
  right. exists k. split; [eapply dropped_kind_not_table; eauto |].
  split; [reflexivity |].
  eapply drop_kind; eauto. eapply dropped_kind_not_table; eauto.
Qed.

Lemma name_eqb_trans a n m :
  name_eqb a n = true -> name_eqb a m = true -> name_eqb n m = true.
Proof.
  unfold name_eqb. rewrite !String.eqb_eq. congruence.
Qed.

Lemma resolve_create_other n m d d' :
  create_table m d = inr d' -> name_eqb m n = false ->
  resolve n d' = resolve n d.
Proof.
  intros H Hn. destruct (create_table_master _ _ _ H) as [E | E];
    unfold resolve; rewrite E; [reflexivity |].
  destruct (find (named [KTable; KView] n) (master d)) as [o |] eqn:Hf.
  - apply find_app_some. exact Hf.
  - rewrite (find_app_none _ _ _ Hf). simpl. unfold named. simpl.
    rewrite Hn. reflexivity.
Qed.

Lemma resolve_after_ensure n d :
  name_eqb n "transactions" = false ->
  resolve n (after_ensure d) = resolve n d.
Proof.
  intros Hn. destruct (after_ensure_cases d) as [-> | (k & Hk & _ & ->)];
    [reflexivity |].
  unfold resolve, with_master. simpl.
  apply find_filter_keep. intros x Hx.
  destruct (removed_by k x) eqn:Hr; [| reflexivity].
  exfalso. unfold named in Hx. apply andb_true_iff in Hx. destruct Hx as [Hx1 Hx2].
  unfold removed_by in Hr. apply orb_true_iff in Hr. destruct Hr as [Hr | Hr].
  - unfold named in Hr. apply andb_true_iff in Hr. destruct Hr as [_ Hr].
    rewrite (name_eqb_trans _ _ _ Hx2 Hr) in Hn. discriminate.
  - apply andb_true_iff in Hr. destruct Hr as [_ Hr].
    unfold attached in Hr. apply andb_true_iff in Hr. destruct Hr as [Hr _].
    unfold is_kind in *. simpl in *. destruct (o_type x); discriminate.
Qed.




Lemma app_table_cases n :
  In n app_tables -> n = "books" \/ n = "members" \/ n = "locations".
Proof. simpl. intuition. Qed.






Lemma init_db_store today d : store (init_db today d) = schema_after d.
Proof. destruct (init_db_eq today d) as (e & t & ->). reflexivity. Qed.



Lemma named_exactly_create m d d' :
  create_table m d = inr d' -> (m =? "transactions")%string = false ->
  named_exactly "transactions" d' = named_exactly "transactions" d.
Proof.
  intros H Hm. unfold named_exactly.
  destruct (create_table_master _ _ _ H) as [-> | ->]; [reflexivity |].
  rewrite filter_app. simpl. rewrite Hm. apply app_nil_r.
Qed.

Lemma filter_comm {A} (p q : A -> bool) l :
  filter p (filter q l) = filter q (filter p l).
Proof.
  induction l as [| x r IH]; simpl; [reflexivity |].
  destruct (p x) eqn:Hp, (q x) eqn:Hq; simpl; rewrite ?Hp, ?Hq, IH; reflexivity.
Qed.

Lemma after_ensure_idem d :
  (List.length (named_exactly "transactions" d) <= 1)%nat ->
  after_ensure (after_ensure d) = after_ensure d.
Proof.
  intros Hlen.
  destruct (after_ensure_cases d) as [E | (k & Hk & Hd & ->)];
    [rewrite !E; reflexivity |].
  set (d' := with_master (filter (fun x => negb (removed_by k x))) d).
  assert (named_exactly "transactions" d' = []) as E.
  { unfold named_exactly, d', with_master. simpl. rewrite filter_comm.
    unfold dropped_kind, first_named in Hd. unfold named_exactly in Hlen.
    destruct (filter (fun o => (o_name o =? "transactions")%string) (master d))
      as [| o r] eqn:Hf; [reflexivity |].
    destruct r; [| simpl in Hlen; lia].
    simpl in Hd. destruct (kind_eqb (o_type o) KTable) eqn:Ht; [discriminate |].
    injection Hd as <-.
    assert (In o (filter (fun o => (o_name o =? "transactions")%string) (master d)))
      as Ho by (rewrite Hf; left; reflexivity).
    apply filter_In in Ho. destruct Ho as [_ Ho]. apply String.eqb_eq in Ho.
    simpl. unfold removed_by, named, is_kind. simpl. rewrite Ho.
    replace (kind_eqb (o_type o) (o_type o)) with true
      by (destruct (o_type o); reflexivity).
    reflexivity. }
  unfold after_ensure, dropped_kind, first_named.
  fold (named_exactly "transactions" d'). rewrite E. reflexivity.
Qed.

Lemma schema_after_idem d :
  (List.length (named_exactly "transactions" d) <= 1)%nat ->
  schema_after (schema_after d) = schema_after d.
Proof.
  intros Hlen. unfold schema_after at 2 3.
  destruct (create_table "books" d) as [e | d1] eqn:H1.
  { unfold schema_after. rewrite H1. reflexivity. }
  destruct (create_table_resolves _ _ _ H1) as [[o1 R1] _].
  destruct (create_table "members" d1) as [e | d2] eqn:H2.
  { unfold schema_after. rewrite (create_table_again _ _ _ R1), H2. reflexivity. }
  destruct (create_table_resolves _ _ _ H2) as [[o2 R2] _].
  pose proof (resolve_create _ _ _ _ H2 _ R1) as R12.
  destruct (create_table "locations" d2) as [e | d3] eqn:H3.
  { unfold schema_after.
    rewrite (create_table_again _ _ _ R12), (create_table_again _ _ _ R2), H3.
    reflexivity. }
  destruct (create_table_resolves _ _ _ H3) as [[o3 R3] _].
  pose proof (resolve_create _ _ _ _ H3 _ R12) as R13.
  pose proof (resolve_create _ _ _ _ H3 _ R2) as R23.
  unfold schema_after.
  rewrite (create_table_again "books" (after_ensure d3) o1)
    by (rewrite resolve_after_ensure by reflexivity; exact R13).
  rewrite (create_table_again "members" (after_ensure d3) o2)
    by (rewrite resolve_after_ensure by reflexivity; exact R23).
  rewrite (create_table_again "locations" (after_ensure d3) o3)
    by (rewrite resolve_after_ensure by reflexivity; exact R3).
  apply after_ensure_idem.
  rewrite (named_exactly_create _ _ _ H3) by reflexivity.
  rewrite (named_exactly_create _ _ _ H2) by reflexivity.
  rewrite (named_exactly_create _ _ _ H1) by reflexivity.
  exact Hlen.
Qed.

(** C6. When at most one schema object is named exactly [transactions], a
    second [init_db] leaves the store as the first one left it: the same
    tables and indexes, the same rows. *)
Theorem init_db_twice today1 today2 d :
  (List.length (named_exactly "transactions" d) <= 1)%nat ->
  let d1 := store (init_db today1 d) in
  let d2 := store (init_db today2 d1) in
  d2 = d1
  /\ tables_and_indexes d2 = tables_and_indexes d1
  /\ books d2 = books d1 /\ members d2 = members d1
  /\ locations d2 = locations d1 /\ transactions d2 = transactions d1.
Proof.
  intros Hlen. cbv zeta. rewrite !init_db_store.
  rewrite (schema_after_idem _ Hlen). repeat split.
Qed.

(** C6 on the empty store. *)
Lemma init_db_twice_witness :
  let d1 := store (init_db "2026-11-03" empty_db) in
  let d2 := store (init_db "2026-11-04" d1) in
  d2 = d1
  /\ tables_and_indexes d2 = tables_and_indexes d1
  /\ books d2 = books d1 /\ members d2 = members d1
  /\ locations d2 = locations d1 /\ transactions d2 = transactions d1.
Proof. apply (init_db_twice "2026-11-03" "2026-11-04" empty_db). simpl. lia. Defined.

(** C6, on a store that holds a trigger and an index both named
    [transactions]: the first [init_db] drops the trigger and the second one
    the index. *)
Lemma init_db_twice_drops_index :
  let d1 := store (init_db "2026-11-03" store_with_trigger_and_index) in
  let d2 := store (init_db "2026-11-03" d1) in
  In (mkObj KIndex "transactions" "x") (tables_and_indexes d1)
  /\ ~ In (mkObj KIndex "transactions" "x") (tables_and_indexes d2).
Proof.
  vm_compute. split; [right; left; reflexivity |].
  intros [H | [H | [H | [H | []]]]]; discriminate.
Qed.

(** *** Inserting locations *)











(** *** [ensure_default_locations] *)







(** ** Import: validation of the columns *)

Lemma keys_dict_set d k v x :
  In x (keys (dict_set d k v)) <-> x = k \/ In x (keys d).
Proof.
  induction d as [| [k' v'] r IH]; simpl.
  - intuition.
  - destruct (k' =? k)%string eqn:E; simpl.
    + apply String.eqb_eq in E. subst. intuition.
    + unfold keys in IH. rewrite IH. intuition.
Qed.

Lemma keys_lower_fold cols d0 x :
  In x (keys (fold_left (fun d c => dict_set d (Py.lower c) c) cols d0))
  <-> In x (keys d0) \/ In x (map Py.lower cols).
Proof.
  revert d0. induction cols as [| c r IH]; intros d0; simpl.
  - intuition.
  - rewrite IH, keys_dict_set. intuition.
Qed.

Lemma keys_lower_columns cols x :
  In x (keys (lower_columns cols)) <-> In x (map Py.lower cols).
Proof. unfold lower_columns. rewrite keys_lower_fold. simpl. intuition. Qed.

Lemma issubset_lacks needed df :
  lacks_column needed df ->
  issubset needed (keys (lower_columns (df_columns df))) = false.
Proof.
  intros (n & Hn & Hc). unfold issubset.
  destruct (forallb _ needed) eqn:E; [| reflexivity].
  rewrite forallb_forall in E. specialize (E n Hn).
  apply existsb_exists in E. destruct E as (k & Hk & Ek).
  apply String.eqb_eq in Ek. subst k.
  apply keys_lower_columns, in_map_iff in Hk. destruct Hk as (c & Hl & Hin).
  exfalso. exact (Hc c Hin Hl).
Qed.

(** C9. When some required column of an upload is the lower-case form of none
    of the columns of the file, the import shows the validation error of that
    upload and nothing else, raises nothing, and leaves the store as it was. *)
Theorem import_missing_columns series_str u df today d :
  lacks_column (required u) df ->
  import_file series_str u df today d
  = mkOut (inr tt) d [Error (missing_message u)].
Proof.
  intros H. apply issubset_lacks in H.
  destruct u; cbn [import_file required missing_message] in *.
  - unfold import_books. cbv zeta. rewrite H. reflexivity.
  - unfold import_members. cbv zeta. rewrite H. reflexivity.
  - unfold import_locations. cbv zeta. rewrite H. reflexivity.
Qed.

(** C9 on a books file without the column default_location. *)
Lemma import_missing_columns_witness :
  import_file (fun _ => "") UBooks
    (mkDF ["Title"; "AUTHOR"; "Genre"] [[CStr "Dune"; CStr "Herbert"; CNaN]])
    "2026-11-03" empty_db
  = mkOut (inr tt) empty_db [Error (missing_message UBooks)].
Proof.
  apply (import_missing_columns (fun _ => "") UBooks).
  exists "default_location". split.
  - simpl. tauto.
  - intros c Hc. simpl in Hc.
    destruct Hc as [<- | [<- | [<- | []]]]; vm_compute; discriminate.
Defined.

(** ** The helpers, in one piece *)

Lemma run_sql_eq sql params today d st :
  parse_sql sql = Some st ->
  run_sql sql params today d =
  match exec_stmt today true st params d with
  | inl e =>
      mkOut (inl e) d [Submitted SQL.pragma_foreign_keys []; Submitted sql params]
  | inr (d', c) =>
      mkOut (inr (c_lastrowid c)) d'
            [Submitted SQL.pragma_foreign_keys []; Submitted sql params]
  end.
Proof.
  intros H. unfold run_sql. run_with get_conn_eq.
  rewrite bind_out, (execute_eq _ _ _ _ _ _ H). out.
  destruct (exec_stmt today true st params d) as [e | [d' c]]; reflexivity.
Qed.

Lemma fetch_df_eq sql params today d st :
  parse_sql sql = Some st ->
  fetch_df sql params today d =
  match exec_stmt today true st params d with
  | inl e =>
      mkOut (inl e) d [Submitted SQL.pragma_foreign_keys []; Submitted sql params]
  | inr (d', c) =>
      mkOut (inr (c_rows c)) d'
            [Submitted SQL.pragma_foreign_keys []; Submitted sql params]
  end.
Proof.
  intros H. unfold fetch_df. run_with get_conn_eq.
  rewrite bind_out, (execute_eq _ _ _ _ _ _ H). out.
  destruct (exec_stmt today true st params d) as [e | [d' c]]; reflexivity.
Qed.



(** ** The Add Location form *)




(** ** Import of books *)









Lemma resolve_add_index n d x y :
  resolve n (with_master (fun m => m ++ [mkObj KIndex x y])%list d) = resolve n d.
Proof.
  unfold resolve, with_master. simpl.
  destruct (find (named [KTable; KView] n) (master d)) as [o |] eqn:Hf.
  - apply find_app_some. exact Hf.
  - rewrite (find_app_none _ _ _ Hf). reflexivity.
Qed.




(** C3, on the export of one book whose author was left blank in the Add Book
    form: the file read back holds a missing value for the author, the import
    renders it as the text nan, and the books table gains a second row. *)
Theorem export_import_blank_author :
  let ss := fun _ : list cell => "" in
  let exported := export_books store_with_dune in
  let d2 := store (page_import_export ss false
                     (Some (to_csv_read_csv exported)) None None
                     false false false "2026-11-03" store_with_dune) in
  books store_with_dune = [dune]
  /\ In (Download "books.csv" exported)
        (trace (page_import_export ss false None None None true false false
                  "2026-11-03" store_with_dune))
  /\ f_rows exported = [[VInt 1; VText "Dune"; VText ""; VText ""; VText "";
                         VNull; VNull]]
  /\ books d2 =
     [dune; mkBook 2 (Some "Dune") (Some "nan") (Some "nan") (Some "nan") None None].
Proof.
  vm_compute. repeat split. right. right. left. reflexivity.
Qed.

(** ** Issuing a book *)

Lemma in_insert_by {A} (lt : A -> A -> bool) x y l :
  In x (insert_by lt y l) -> x = y \/ In x l.
Proof.
  induction l as [| z r IH]; simpl.
  - intros [<- | []]. left. reflexivity.
  - destruct (lt z y); simpl.
    + intros [<- | H]; [right; left; reflexivity |].
      destruct (IH H) as [-> | H']; [left; reflexivity | right; right; exact H'].
    + intros [<- | H]; [left; reflexivity | right; exact H].
Qed.

Lemma in_order_by {A} (key : A -> value) desc l x :
  In x (order_by key desc l) -> In x l.
Proof.
  unfold order_by. induction l as [| y r IH]; simpl; [tauto |].
  intros H. apply in_insert_by in H. destruct H as [-> | H]; [left; reflexivity |].
  right. apply IH. exact H.
Qed.

Lemma not_readable_one n d :
  not_readable [n] d = if is_table n d then None else Some ("no such table: " ++ n).
Proof. simpl. destruct (is_table n d); reflexivity. Qed.

Lemma select_book_store k today d : store (select_book k today d) = d.
Proof.
  unfold select_book. rewrite bind_out.
  rewrite (fetch_df_eq _ _ _ _ PickBooks) by reflexivity.
  cbn [exec_stmt]. unfold selected. rewrite not_readable_one.
  destruct (is_table "books" d); out; [| reflexivity].
  cbn [c_rows]. destruct (f_rows (pick_books d)) as [| r0 rows]; [reflexivity |].
  cbv zeta. destruct (index_of _ _ _) as [idx |]; [| reflexivity].
  destruct (nth idx (r0 :: rows) []) as [| [| z |] [| title rest]]; reflexivity.
Qed.

Lemma select_book_some k today d bid bt :
  result (select_book k today d) = inr (Some (bid, bt)) ->
  is_table "books" d = true
  /\ existsb (Z.eqb bid) (map book_id (books d)) = true.
Proof.
  unfold select_book. rewrite bind_out.
  rewrite (fetch_df_eq _ _ _ _ PickBooks) by reflexivity.
  cbn [exec_stmt]. unfold selected. rewrite not_readable_one.
  destruct (is_table "books" d); out; [| discriminate].
  cbn [c_rows]. intros H. split; [reflexivity |].
  destruct (f_rows (pick_books d)) as [| r0 rows] eqn:Hrows; [discriminate |].
  cbv zeta in H. destruct (index_of _ _ _) as [idx |]; [| discriminate].
  destruct (nth_in_or_default idx (r0 :: rows) []) as [Hin | Hd].
  - assert (In (nth idx (r0 :: rows) []) (f_rows (pick_books d))) as Hin'
        by (rewrite Hrows; exact Hin).
    clear Hin. rename Hin' into Hin.
    unfold pick_books in Hin. cbn [f_rows] in Hin.
    apply in_map_iff in Hin. destruct Hin as (b & Hb & Hin).
    apply in_order_by in Hin. rewrite <- Hb in H. cbn in H.
    injection H as <- _.
    apply existsb_exists. exists (book_id b). split; [| apply Z.eqb_refl].
    apply in_map. exact Hin.
  - rewrite Hd in H. discriminate.
Qed.

Lemma select_member_store k today d : store (select_member k today d) = d.
Proof.
  unfold select_member. rewrite bind_out.
  rewrite (fetch_df_eq _ _ _ _ PickMembers) by reflexivity.
  cbn [exec_stmt]. unfold selected. rewrite not_readable_one.
  destruct (is_table "members" d); out; [| reflexivity].
  cbn [c_rows]. destruct (f_rows (pick_members d)) as [| r0 rows]; [reflexivity |].
  cbv zeta. destruct (index_of _ _ _) as [idx |]; [| reflexivity].
  destruct (nth idx (r0 :: rows) []) as [| [| z |] rest]; reflexivity.
Qed.

Lemma select_member_some k today d mid mn :
  result (select_member k today d) = inr (Some (mid, mn)) ->
  is_table "members" d = true
  /\ existsb (Z.eqb mid) (map member_id (members d)) = true.
Proof.
  unfold select_member. rewrite bind_out.
  rewrite (fetch_df_eq _ _ _ _ PickMembers) by reflexivity.
  cbn [exec_stmt]. unfold selected. rewrite not_readable_one.
  destruct (is_table "members" d); out; [| discriminate].
  cbn [c_rows]. intros H. split; [reflexivity |].
  destruct (f_rows (pick_members d)) as [| r0 rows] eqn:Hrows; [discriminate |].
  cbv zeta in H. destruct (index_of _ _ _) as [idx |]; [| discriminate].
  destruct (nth_in_or_default idx (r0 :: rows) []) as [Hin | Hd].
  - assert (In (nth idx (r0 :: rows) []) (f_rows (pick_members d))) as Hin'
        by (rewrite Hrows; exact Hin).
    clear Hin. rename Hin' into Hin.
    unfold pick_members in Hin. cbn [f_rows] in Hin.
    apply in_map_iff in Hin. destruct Hin as (b & Hb & Hin).
    apply in_order_by in Hin. rewrite <- Hb in H. cbn in H.
    injection H as <- _.
    apply existsb_exists. exists (member_id b). split; [| apply Z.eqb_refl].
    apply in_map. exact Hin.
  - rewrite Hd in H. discriminate.
Qed.



(** ** The return date of a transaction *)













Lemma fetch_open_issues today d f :
  result (fetch_df SQL.open_issues [] today d) = inr f ->
  store (fetch_df SQL.open_issues [] today d) = d
  /\ f = open_issues d
  /\ is_table "transactions" d = true.
Proof.
  rewrite (fetch_df_eq _ _ _ _ OpenIssues) by reflexivity.
  cbn [exec_stmt]. unfold selected. cbn [not_readable].
  destruct (is_table "transactions" d); [| discriminate].
  destruct (is_table "books" d); [| discriminate].
  destruct (is_table "members" d); [| discriminate].
  out. cbn [c_rows]. intros H. injection H as <-. repeat split.
Qed.

Lemma selectbox_in {A} (dflt : A) options k :
  options <> [] -> In (selectbox dflt options k) options.
Proof.
  intros Hne. unfold selectbox.
  destruct (nth_in_or_default k options (hd dflt options)) as [H | ->]; [exact H |].
  destruct options; [congruence | left; reflexivity].
Qed.













(** ** The script as a whole *)

(** X1. [init_db] raises on every store, at the CREATE TABLE statement of
    [transactions] at the latest; so does [main], which stops there: it
    reaches neither the seeding of the locations nor the page. *)
Theorem main_raises series_str p today d :
  (exists e, result (init_db today d) = inl e)
  /\ (exists e, result (main series_str p today d) = inl e)
  /\ store (main series_str p today d) = store (init_db today d)
  /\ trace (main series_str p today d) = trace (init_db today d).
Proof.
  destruct (init_db_eq today d) as (e & t & E).
  unfold main. rewrite bind_out, E. out.
  split; [eauto |]. split; [eauto |]. split; reflexivity.
Qed.

(** ** The statements behind the literals *)

Lemma literal_issued sql :
  In sql SQL.literals ->
  parse_sql sql = None \/ exists st, parse_sql sql = Some st /\ issued st = true.
Proof.
  intros H. unfold SQL.literals in H. simpl in H.
  repeat (destruct H as [<- | H];
          [first [ left; vm_compute; reflexivity
                 | right; eexists; split; vm_compute; reflexivity ] |]).
  destruct H.
Qed.

Lemma issued_table n : issued (CreateTable n) = true -> In n app_tables.
Proof.
  simpl. rewrite !orb_false_r. intros H.
  repeat (apply orb_true_iff in H; destruct H as [H | H]);
    apply String.eqb_eq in H; subst; simpl; tauto.
Qed.

Lemma not_writable_unresolved n d :
  resolve n d = None -> exists e, not_writable n d = Some e.
Proof. unfold not_writable. intros ->. eauto. Qed.

(** ** The table of transactions is never created *)

Lemma create_index_resolve n name tbl d d' :
  create_index name tbl d = inr d' ->
  resolve n d' = resolve n d /\ transactions d' = transactions d.
Proof.
  unfold create_index. intros H.
  destruct (resolve tbl d) as [o |]; [| discriminate].
  destruct (kind_eqb (o_type o) KView); [discriminate |].
  destruct (resolve name d); [discriminate |].
  destruct (has_index name d); injection H as <-; [split; reflexivity |].
  split; [apply resolve_add_index | reflexivity].
Qed.

Lemma create_books_key_resolve n d d' :
  create_books_key d = inr d' ->
  resolve n d' = resolve n d /\ transactions d' = transactions d.
Proof.
  unfold create_books_key. intros H.
  destruct (resolve "books" d) as [o |]; [| discriminate].
  destruct (kind_eqb (o_type o) KView); [discriminate |].
  destruct (resolve books_key d); [discriminate |].
  destruct (has_index books_key d); [injection H as <-; split; reflexivity |].
  destruct (duplicate_keys (books d)); [discriminate |]. injection H as <-.
  split; [apply resolve_add_index | reflexivity].
Qed.

Lemma exec_stmt_lacks today fk st params d d' c :
  issued st = true ->
  resolve "transactions" d = None ->
  exec_stmt today fk st params d = inr (d', c) ->
  resolve "transactions" d' = None /\ transactions d' = transactions d.
Proof.
  intros Hi Hr H.
  destruct (not_writable_unresolved _ _ Hr) as [e Hw].
  destruct st; try discriminate Hi;
    destruct params as [| p1 [| p2 [| p3 [| p4 [| p5 ps]]]]];
    cbn [exec_stmt] in H; try discriminate H;
    unfold done, inserted, selected in H.
  - injection H as <- _. auto.
  - destruct (not_readable [] d); [discriminate |]. injection H as <- _. auto.
  - destruct (create_table name d) as [e' | d1] eqn:Hc; [discriminate |].
    injection H as <- _.
    destruct (create_table_rows _ _ _ Hc) as (_ & _ & _ & T & _).
    split; [| exact T]. rewrite <- Hr.
    apply (resolve_create_other _ _ _ _ Hc).
    apply issued_table in Hi. destruct (app_table_cases _ Hi) as [-> | [-> | ->]];
      reflexivity.
  - destruct (create_transactions_fails d) as [e' E]. rewrite E in H. discriminate.
  - destruct (create_index name tbl d) as [e' | d1] eqn:Hc; [discriminate |].
    injection H as <- _.
    destruct (create_index_resolve "transactions" _ _ _ _ Hc) as [A B].
    split; congruence.
  - destruct (create_books_key d) as [e' | d1] eqn:Hc; [discriminate |].
    injection H as <- _.
    destruct (create_books_key_resolve "transactions" _ _ Hc) as [A B].
    split; congruence.
  - unfold insert_location in H. destruct (not_writable "locations" d); [discriminate |].
    destruct (name_taken _ _); injection H as <- _; auto.
  - unfold insert_book in H. destruct (not_writable "books" d); [discriminate |].
    destruct (has_index books_key d && key_taken _ _ _);
      [destruct or_ignore; [| discriminate] |]; injection H as <- _; auto.
  - unfold insert_member in H. destruct (not_writable "members" d); [discriminate |].
    injection H as <- _; auto.
  - unfold insert_transaction in H. rewrite Hw in H.
    destruct (int_of p1), (int_of p2); discriminate.
  - unfold mark_returned in H. rewrite Hw in H.
    destruct (int_of p1); discriminate.
  - destruct (not_readable _ d); [discriminate |]. injection H as <- _. auto.
  - destruct (not_readable _ d); [discriminate |]. injection H as <- _. auto.
  - destruct (not_readable _ d); [discriminate |]. injection H as <- _. auto.
  - destruct (not_readable _ d); [discriminate |]. injection H as <- _. auto.
  - destruct (not_readable _ d); [discriminate |]. injection H as <- _. auto.
  - destruct (not_readable _ d); [discriminate |]. injection H as <- _. auto.
  - destruct (not_readable _ d); [discriminate |]. injection H as <- _. auto.
Qed.

Lemma lacks_refl today d : lacks_transactions today d d [].
Proof. intros H. auto. Qed.

Lemma lacks_trans today d d1 d2 t1 t2 :
  lacks_transactions today d d1 t1 -> lacks_transactions today d1 d2 t2 ->
  lacks_transactions today d d2 (t1 ++ t2).
Proof.
  intros A B H. destruct (A H) as [A1 A2]. destruct (B A1) as [B1 B2].
  split; congruence.
Qed.

Lemma lacks_execute con sql params :
  In sql SQL.literals -> sat lacks_transactions (execute con sql params).
Proof.
  intros Hin today d. unfold sat_at, execute, sqlite_execute.
  destruct (literal_issued sql Hin) as [-> | (st & -> & Hi)]; out.
  - apply (lacks_refl today).
  - destruct (exec_stmt today (foreign_keys con) st params d) as [e | [d' c]] eqn:He;
      out; [apply (lacks_refl today) |].
    intros Hr. eapply exec_stmt_lacks; eauto.
Qed.

Lemma lacks_emit e : sat lacks_transactions (emit e).
Proof. intros today d. unfold sat_at. simpl. apply (lacks_refl today). Qed.

Lemma resolve_filter_none n p d :
  resolve n d = None -> resolve n (with_master (filter p) d) = None.
Proof.
  unfold resolve, with_master. simpl. intros H.
  induction (master d) as [| x r IH]; simpl in *; [reflexivity |].
  destruct (named [KTable; KView] n x) eqn:Hx; [discriminate |].
  destruct (p x); simpl; [rewrite Hx |]; auto.
Qed.

Lemma lacks_ensure : sat lacks_transactions (_ensure_is_table "transactions").
Proof.
  intros today d. unfold sat_at. rewrite ensure_is_table_eq.
  destruct (dropped_kind d) as [k |] eqn:Hk; [| apply (lacks_refl today)].
  destruct (drop _ _ d) as [e | d'] eqn:Hd; out; [apply (lacks_refl today) |].
  rewrite (drop_kind k d d' (dropped_kind_not_table _ _ Hk) Hd).
  intros Hr. split; [apply resolve_filter_none; exact Hr | reflexivity].
Qed.

Lemma lacks_mark today d f chosen_k mark :
  result (fetch_df SQL.open_issues [] today d) = inr f ->
  sat_at lacks_transactions (mark_chosen (f_rows f) chosen_k mark) today
         (store (fetch_df SQL.open_issues [] today d)).
Proof.
  intros Hf. destruct (fetch_open_issues _ _ _ Hf) as (-> & _ & Ht).
  intros Hr. unfold is_table in Ht. rewrite Hr in Ht. discriminate.
Qed.

Lemma lacks_run_op series_str op : sat lacks_transactions (run_op series_str op).
Proof.
  apply (sat_run_op lacks_transactions lacks_refl lacks_trans
           (fun sql => In sql SQL.literals)).
  - apply lacks_execute.
  - intros. apply lacks_emit.
  - intros. apply lacks_emit.
  - intros. apply lacks_emit.
  - intros. apply lacks_emit.
  - intros. apply lacks_emit.
  - apply lacks_ensure.
  - apply lacks_mark.
  - intros sql H _. exact H.
Qed.

(** X2. No entry point of the program creates the table [transactions]: on a
    store where no table and no view bears that name, none does after any
    sequence of operations, and the rows recorded for it stay as they were; in
    particular no book is ever issued. *)
Theorem transactions_never_created series_str ops d :
  resolve "transactions" d = None ->
  resolve "transactions" (run_all series_str ops d) = None
  /\ is_table "transactions" (run_all series_str ops d) = false
  /\ transactions (run_all series_str ops d) = transactions d.
Proof.
  revert d. induction ops as [| [today op] r IH]; intros d Hr; cbn [run_all].
  - unfold is_table. rewrite Hr. auto.
  - destruct (lacks_run_op series_str op today d Hr) as [A B].
    destruct (IH _ A) as (I1 & I2 & I3).
    split; [exact I1 |]. split; [exact I2 | congruence].
Qed.

(** X2 from the empty store, over a run of the script, a schema
    initialisation, a seeding and three pages. *)
Lemma transactions_never_created_witness :
  let ops := [("2026-11-03", Run (Dashboard "(All)"));
              ("2026-11-03", InitDb);
              ("2026-11-03", Seed 45);
              ("2026-11-04", Show (Members "Ann" "" "" true));
              ("2026-11-04", Show (Books "Dune" "Herbert" "" 0%nat true));
              ("2026-11-05", Show (IssueReturn 0 0 None true 0 false))] in
  resolve "transactions" (run_all (fun _ => "") ops empty_db) = None
  /\ is_table "transactions" (run_all (fun _ => "") ops empty_db) = false
  /\ transactions (run_all (fun _ => "") ops empty_db) = transactions empty_db.
Proof.
  apply (transactions_never_created (fun _ => "")). reflexivity.
Defined.

(** ** Relations that hold of every statement of the program *)

Section FrameAll.

Variable R : string -> DB -> DB -> list event -> Prop.
Hypothesis R_refl : forall today d, R today d d [].
Hypothesis R_trans : forall today d d1 d2 t1 t2,
  R today d d1 t1 -> R today d1 d2 t2 -> R today d d2 (t1 ++ t2).
Hypothesis R_execute : forall con sql params,
  In sql SQL.literals -> sat R (execute con sql params).
Hypothesis R_emit : forall e, sat R (emit e).
Hypothesis R_ensure : sat R (_ensure_is_table "transactions").

Lemma sat_mark_chosen rows chosen_k mark : sat R (mark_chosen rows chosen_k mark).
Proof.
  unfold mark_chosen. destruct rows as [| x l].
  - apply (sat_ret _ R_refl).
  - cbv zeta. apply (sat_when _ R_refl).
    destruct (selectbox VNull (column 0 (x :: l)) chosen_k);
      try apply (sat_raise _ R_refl).
    apply (sat_bind _ R_trans).
    + unfold run_sql. apply (sat_bind _ R_trans).
      * unfold get_conn. apply (sat_bind _ R_trans); [apply (sat_ret _ R_refl) |].
        intros con. apply (sat_bind _ R_trans).
        -- apply R_execute. unfold SQL.literals. left. reflexivity.
        -- intros. apply (sat_ret _ R_refl).
      * intros con. apply (sat_bind _ R_trans).
        -- apply R_execute. unfold SQL.literals.
           repeat (first [left; reflexivity | right]).
        -- intros. apply (sat_ret _ R_refl).
    + intros. apply R_emit.
Qed.

Lemma sat_any_op series_str op : sat R (run_op series_str op).
Proof.
  apply (sat_run_op R R_refl R_trans (fun sql => In sql SQL.literals)).
  - apply R_execute.
  - intros. apply R_emit.
  - intros. apply R_emit.
  - intros. apply R_emit.
  - intros. apply R_emit.
  - intros. apply R_emit.
  - apply R_ensure.
  - intros today d f chosen_k mark _. apply sat_mark_chosen.
  - intros sql H _. exact H.
Qed.

End FrameAll.

(** ** Rows are only ever added *)

Lemma extends_refl {A} (l : list A) : extends l l.
Proof. exists []. symmetry. apply app_nil_r. Qed.


Lemma extends_one {A} (l : list A) x : extends l (l ++ [x]).
Proof. exists [x]. reflexivity. Qed.

Lemma extends_eq {A} (l l' : list A) : l' = l -> extends l l'.
Proof. intros ->. apply extends_refl. Qed.



Lemma append_only_rows today d d' t :
  books d' = books d -> members d' = members d -> locations d' = locations d ->
  transactions d' = transactions d -> append_only today d d' t.
Proof. intros B M L T. repeat split; apply extends_eq; congruence. Qed.

Lemma issue_of_marked today id l :
  map issue_of
      (map (fun t => if key_is id (txn_id t) then set_return_date today t else t) l)
  = map issue_of l.
Proof.
  rewrite map_map. apply map_ext. intros t.
  destruct (key_is id (txn_id t)); reflexivity.
Qed.


Lemma exec_stmt_append_only today fk st params d d' c t :
  issued st = true ->
  exec_stmt today fk st params d = inr (d', c) ->
  append_only today d d' t.
Proof.
  intros Hi H.
  destruct st; try discriminate Hi;
    destruct params as [| p1 [| p2 [| p3 [| p4 [| p5 ps]]]]];
    cbn [exec_stmt] in H; try discriminate H;
    unfold done, inserted, selected in H;
    try (destruct (not_readable _ d); [discriminate |]; injection H as <- _;
         (apply append_only_rows; reflexivity)).
  - injection H as <- _. (apply append_only_rows; reflexivity).
  - destruct (create_table name d) as [e' | d1] eqn:Hc; [discriminate |].
    injection H as <- _.
    destruct (create_table_rows _ _ _ Hc) as (B & M & L & T & _).
    apply append_only_rows; assumption.
  - destruct (create_transactions_fails d) as [e' E]. rewrite E in H. discriminate.
  - unfold create_index in H.
    destruct (resolve tbl d) as [o |]; [| discriminate].
    destruct (kind_eqb (o_type o) KView); [discriminate |].
    destruct (resolve name d); [discriminate |].
    destruct (has_index name d); injection H as <- _;
      (apply append_only_rows; reflexivity).
  - unfold create_books_key in H.
    destruct (resolve "books" d) as [o |]; [| discriminate].
    destruct (kind_eqb (o_type o) KView); [discriminate |].
    destruct (resolve books_key d); [discriminate |].
    destruct (has_index books_key d);
      [injection H as <- _; (apply append_only_rows; reflexivity) |].
    destruct (duplicate_keys (books d)); [discriminate |].
    injection H as <- _; (apply append_only_rows; reflexivity).
  - unfold insert_location in H. destruct (not_writable "locations" d); [discriminate |].
    destruct (name_taken _ _); injection H as <- _;
      repeat split; first [apply extends_refl | apply extends_one].
  - unfold insert_book in H. destruct (not_writable "books" d); [discriminate |].
    destruct (has_index books_key d && key_taken _ _ _);
      [destruct or_ignore; [| discriminate] |]; injection H as <- _;
      repeat split; first [apply extends_refl | apply extends_one].
  - unfold insert_member in H. destruct (not_writable "members" d); [discriminate |].
    injection H as <- _;
      repeat split; first [apply extends_refl | apply extends_one].
  - destruct (int_of p1) as [e1 | b]; [discriminate |].
    destruct (int_of p2) as [e2 | m]; [discriminate |].
    unfold insert_transaction in H.
    destruct (not_writable "transactions" d); [discriminate |].
    repeat match type of H with
           | context [if ?x then _ else _] => destruct x; try discriminate H
           end.
    injection H as <- _. repeat split; try apply extends_refl.
    cbn [transactions with_transactions]. rewrite map_app. apply extends_one.
  - destruct (int_of p1) as [e1 | id]; [discriminate |].
    unfold mark_returned in H.
    destruct (not_writable "transactions" d); [discriminate |].
    injection H as <- _. repeat split; try apply extends_refl.
    cbn [transactions with_transactions]. rewrite issue_of_marked.
    apply extends_refl.
Qed.





(** ** A return date, once set, is never rewritten *)



Lemma exec_stmt_fresh today fk st params d d' c :
  quiet st = true ->
  exec_stmt today fk st params d = inr (d', c) ->
  transactions d' = transactions d
  \/ exists t, transactions d' = (transactions d ++ [t])%list
               /\ txn_id t = next_rowid (seq_transactions d)
                                        (map txn_id (transactions d)).
Proof.
  intros Hq H.
  destruct st; try discriminate Hq;
    destruct params as [| p1 [| p2 [| p3 [| p4 [| p5 ps]]]]];
    cbn [exec_stmt] in H; try discriminate H;
    unfold done, inserted, selected, create_table, create_transactions,
      create_index, create_books_key, insert_location, insert_book,
      insert_member, insert_transaction in H;
    repeat match type of H with
           | context [match ?x with _ => _ end] =>
               lazymatch x with
               | context [match _ with _ => _ end] => fail
               | _ => destruct x; try discriminate H
               end
           end;
    injection H as <- <-; simpl; eauto.
Qed.

















(** ** The selectors *)

Lemma length_insert_by {A} (lt : A -> A -> bool) x l :
  List.length (insert_by lt x l) = S (List.length l).
Proof.
  induction l as [| y r IH]; simpl; [reflexivity |].
  destruct (lt y x); simpl; [rewrite IH |]; reflexivity.
Qed.

Lemma length_order_by {A} (key : A -> value) desc l :
  List.length (order_by key desc l) = List.length l.
Proof.
  unfold order_by. induction l as [| y r IH]; simpl; [reflexivity |].
  rewrite length_insert_by, IH. reflexivity.
Qed.

Lemma value_eqb_eq a b : value_eqb a b = true <-> a = b.
Proof.
  destruct a, b; simpl; split; intros H; try discriminate; try reflexivity.
  - apply Z.eqb_eq in H. congruence.
  - injection H as ->. apply Z.eqb_refl.
  - apply String.eqb_eq in H. congruence.
  - injection H as ->. apply String.eqb_refl.
Qed.

(** [l.index(x)] is the position of the first element equal to [x]. *)
Lemma index_of_first {A} (eqb : A -> A -> bool) (x dflt : A) l :
  (forall a b, eqb a b = true <-> a = b) ->
  In x l ->
  exists i, index_of eqb x l = Some i
            /\ (i < List.length l)%nat
            /\ nth i l dflt = x
            /\ forall j, (j < i)%nat -> nth j l dflt <> x.
Proof.
  intros Heq. induction l as [| y r IH]; simpl; [tauto |].
  intros Hin. destruct (eqb y x) eqn:E.
  - exists O. apply Heq in E. repeat split; [lia | exact E | intros j Hj; lia].
  - assert (In x r) as Hr.
    { destruct Hin as [-> | H]; [| exact H].
      assert (eqb x x = true) as T by (apply Heq; reflexivity). congruence. }
    destruct (IH Hr) as (i & -> & Hlt & Hn & Hfirst).
    exists (S i). repeat split; [lia | exact Hn |].
    intros [| j] Hj.
    + intros Hy. apply Heq in Hy. congruence.
    + apply Hfirst. lia.
Qed.

Lemma pick_books_rows d :
  f_rows (pick_books d) =
  map (fun b => [VInt (book_id b); vtext (book_title b);
                 VText (ifnull (book_author b) "")])
      (order_by (fun b => vtext (book_title b)) false (books d)).
Proof. reflexivity. Qed.

Lemma pick_books_length d :
  List.length (f_rows (pick_books d)) = List.length (books d).
Proof. rewrite pick_books_rows, length_map. apply length_order_by. Qed.

Lemma pick_books_shape d r :
  In r (f_rows (pick_books d)) ->
  exists id title author, r = [VInt id; title; VText author].
Proof.
  rewrite pick_books_rows. intros H. apply in_map_iff in H.
  destruct H as (b & <- & _). eauto.
Qed.

Lemma pick_members_rows d :
  f_rows (pick_members d) =
  map (fun m => [VInt (member_id m); vtext (member_name m)])
      (order_by (fun m => vtext (member_name m)) false (members d)).
Proof. reflexivity. Qed.

Lemma pick_members_length d :
  List.length (f_rows (pick_members d)) = List.length (members d).
Proof. rewrite pick_members_rows, length_map. apply length_order_by. Qed.

Lemma pick_members_shape d r :
  In r (f_rows (pick_members d)) ->
  exists id name, r = [VInt id; name].
Proof.
  rewrite pick_members_rows. intros H. apply in_map_iff in H.
  destruct H as (b & <- & _). eauto.
Qed.

Lemma nth_error_nth_in {A} (l : list A) i dflt :
  (i < List.length l)%nat -> nth_error l i = Some (nth i l dflt).
Proof. intros H. apply nth_error_nth'. exact H. Qed.

Lemma fetch_pick_books {X} (m : frame -> M X) today d :
  is_table "books" d = true ->
  bind (fetch_df SQL.pick_books []) m today d =
  mkOut (result (m (pick_books d) today d)) (store (m (pick_books d) today d))
        ([Submitted SQL.pragma_foreign_keys []; Submitted SQL.pick_books []]
           ++ trace (m (pick_books d) today d)).
Proof.
  intros Ht. rewrite bind_out, (fetch_df_eq _ _ _ _ PickBooks) by reflexivity.
  cbn [exec_stmt]. unfold selected. rewrite not_readable_one, Ht. out. reflexivity.
Qed.

Lemma select_book_empty k today d :
  is_table "books" d = true -> books d = [] ->
  select_book k today d =
  mkOut (inr None) d
    [Submitted SQL.pragma_foreign_keys []; Submitted SQL.pick_books [];
     Info "No books yet. Import or add some on the **Books** page."].
Proof.
  intros Ht He. pose proof (pick_books_length d) as Hlen.
  unfold select_book. rewrite (fetch_pick_books _ _ _ Ht).
  rewrite He in Hlen. destruct (f_rows (pick_books d)); [| discriminate Hlen].
  reflexivity.
Qed.

Lemma select_book_picks k today d :
  is_table "books" d = true -> books d <> [] ->
  exists i id title author,
    nth_error (f_rows (pick_books d)) i = Some [VInt id; title; VText author]
    /\ book_label [VInt id; title; VText author]
       = selectbox "" (map book_label (f_rows (pick_books d))) k
    /\ (forall j, (j < i)%nat ->
          nth j (map book_label (f_rows (pick_books d))) ""
          <> selectbox "" (map book_label (f_rows (pick_books d))) k)
    /\ select_book k today d =
       mkOut (inr (Some (id, title))) d
         [Submitted SQL.pragma_foreign_keys []; Submitted SQL.pick_books []].
Proof.
  intros Ht Hne. pose proof (pick_books_length d) as Hlen.
  unfold select_book. rewrite (fetch_pick_books _ _ _ Ht).
  pose proof (pick_books_shape d) as Hshape.
  destruct (f_rows (pick_books d)) as [| r0 rows] eqn:Hrows.
  { destruct (books d); [congruence | discriminate Hlen]. }
  cbv zeta.
  set (options := map book_label (r0 :: rows)).
  assert (In (selectbox "" options k) options) as Hin
      by (apply selectbox_in; discriminate).
  destruct (index_of_first String.eqb (selectbox "" options k) "" options
              String.eqb_eq Hin) as (i & Hi & Hlt & Hn & Hfirst).
  rewrite Hi. unfold options in Hlt. rewrite length_map in Hlt.
  assert (In (nth i (r0 :: rows) []) (r0 :: rows)) as Hr by (apply nth_In; exact Hlt).
  destruct (Hshape _ Hr) as (id & title & author & E).
  exists i, id, title, author.
  split; [rewrite <- E; apply nth_error_nth_in; exact Hlt |].
  split.
  { rewrite <- E, <- Hn. unfold options.
    rewrite (nth_indep _ "" (book_label []))
      by (rewrite length_map; exact Hlt).
    symmetry. apply map_nth. }
  split; [exact Hfirst |].
  rewrite E. reflexivity.
Qed.



Lemma fetch_pick_members {X} (m : frame -> M X) today d :
  is_table "members" d = true ->
  bind (fetch_df SQL.pick_members []) m today d =
  mkOut (result (m (pick_members d) today d)) (store (m (pick_members d) today d))
        ([Submitted SQL.pragma_foreign_keys []; Submitted SQL.pick_members []]
           ++ trace (m (pick_members d) today d)).
Proof.
  intros Ht. rewrite bind_out, (fetch_df_eq _ _ _ _ PickMembers) by reflexivity.
  cbn [exec_stmt]. unfold selected. rewrite not_readable_one, Ht. out. reflexivity.
Qed.

Lemma select_member_empty k today d :
  is_table "members" d = true -> members d = [] ->
  select_member k today d =
  mkOut (inr None) d
    [Submitted SQL.pragma_foreign_keys []; Submitted SQL.pick_members [];
     Info "No members yet. Import or add some on the **Members** page."].
Proof.
  intros Ht He. pose proof (pick_members_length d) as Hlen.
  unfold select_member. rewrite (fetch_pick_members _ _ _ Ht).
  rewrite He in Hlen. destruct (f_rows (pick_members d)); [| discriminate Hlen].
  reflexivity.
Qed.

Lemma select_member_picks k today d :
  is_table "members" d = true -> members d <> [] ->
  exists i id name,
    nth_error (f_rows (pick_members d)) i = Some [VInt id; name]
    /\ name = selectbox VNull (column 1 (f_rows (pick_members d))) k
    /\ (forall j, (j < i)%nat ->
          nth j (column 1 (f_rows (pick_members d))) VNull
          <> selectbox VNull (column 1 (f_rows (pick_members d))) k)
    /\ select_member k today d =
       mkOut (inr (Some (id, name))) d
         [Submitted SQL.pragma_foreign_keys []; Submitted SQL.pick_members []].
Proof.
  intros Ht Hne. pose proof (pick_members_length d) as Hlen.
  unfold select_member. rewrite (fetch_pick_members _ _ _ Ht).
  pose proof (pick_members_shape d) as Hshape.
  destruct (f_rows (pick_members d)) as [| r0 rows] eqn:Hrows.
  { destruct (members d); [congruence | discriminate Hlen]. }
  cbv zeta.
  set (options := column 1 (r0 :: rows)).
  assert (In (selectbox VNull options k) options) as Hin
      by (apply selectbox_in; discriminate).
  destruct (index_of_first value_eqb (selectbox VNull options k) VNull options
              value_eqb_eq Hin) as (i & Hi & Hlt & Hn & Hfirst).
  rewrite Hi. unfold options, column in Hlt. rewrite length_map in Hlt.
  assert (In (nth i (r0 :: rows) []) (r0 :: rows)) as Hr by (apply nth_In; exact Hlt).
  destruct (Hshape _ Hr) as (id & name & E).
  assert (nth i options VNull = name) as Hname.
  { unfold options, column.
    transitivity (nth 1 (nth i (r0 :: rows) []) VNull);
      [exact (map_nth (fun r : list value => nth 1 r VNull) (r0 :: rows) [] i) |].
    rewrite E. reflexivity. }
  exists i, id, name.
  split; [rewrite <- E; apply nth_error_nth_in; exact Hlt |].
  split; [congruence |].
  split; [exact Hfirst |].
  rewrite E, Hname. reflexivity.
Qed.



(** ** The Add Book form and the key of the import *)







Lemma duplicate_keys_blocks d :
  duplicate_keys (books d) = true -> has_index books_key d = false ->
  exists e, create_books_key d = inl e.
Proof.
  intros Hd Hi. unfold create_books_key.
  destruct (resolve "books" d) as [o |]; [| eauto].
  destruct (kind_eqb (o_type o) KView); [eauto |].
  destruct (resolve books_key d); [eauto |].
  rewrite Hi, Hd. eauto.
Qed.

(** X19. Once two rows of [books] hold the same title and author, which the
    form allows as long as the unique index is not there, the import of a
    books file fails at the creation of the index, whatever the file, and adds
    nothing. *)
Theorem import_books_blocked series_str df today d :
  duplicate_keys (books d) = true ->
  has_index books_key d = false ->
  issubset ["title"; "author"; "genre"; "default_location"]
           (keys (lower_columns (df_columns df))) = true ->
  exists e,
    import_books series_str (Some df) today d =
    mkOut (inl e) d
      [Submitted SQL.pragma_foreign_keys [];
       Submitted SQL.create_idx_books_title_author []].
Proof.
  intros Hd Hi Hs. destruct (duplicate_keys_blocks d Hd Hi) as [e He].
  exists e. unfold import_books. cbv zeta. rewrite Hs. cbn [negb].
  run_with get_conn_eq. run_execute CreateBooksKey. rewrite He. out.
  reflexivity.
Qed.

(** X19 on a store where the same book was entered twice through the form. *)
Lemma import_books_blocked_witness :
  exists e,
    import_books (fun _ => "") (Some one_book_file) "2026-11-04" library_with_duplicate =
    mkOut (inl e) library_with_duplicate
      [Submitted SQL.pragma_foreign_keys [];
       Submitted SQL.create_idx_books_title_author []].
Proof.
  apply (import_books_blocked (fun _ => "") one_book_file "2026-11-04"
           library_with_duplicate); vm_compute; reflexivity.
Defined.




(** ** Members: the form and the import *)







(** ** Import of locations *)






(** ** The header of an uploaded file *)

Lemma lower_char_idem c : Py.lower_char (Py.lower_char c) = Py.lower_char c.
Proof. destruct c as [[|] [|] [|] [|] [|] [|] [|] [|]]; reflexivity. Qed.

Lemma lower_idem s : Py.lower (Py.lower s) = Py.lower s.
Proof.
  unfold Py.lower. induction s as [| c r IH]; simpl; [reflexivity |].
  rewrite lower_char_idem, IH. reflexivity.
Qed.

Lemma dict_set_new d k v :
  ~ In k (keys d) -> dict_set d k v = (d ++ [(k, v)])%list.
Proof.
  induction d as [| [k' v'] r IH]; simpl; [reflexivity |].
  intros H. destruct (k' =? k)%string eqn:E.
  - apply String.eqb_eq in E. tauto.
  - rewrite IH; [reflexivity | tauto].
Qed.

Lemma fold_dict_set_new (key val : string -> string) l acc :
  NoDup (map key l) ->
  (forall x, In x l -> ~ In (key x) (keys acc)) ->
  fold_left (fun d x => dict_set d (key x) (val x)) l acc
  = (acc ++ map (fun x => (key x, val x)) l)%list.
Proof.
  revert acc. induction l as [| x r IH]; intros acc Hn Hacc; simpl.
  - symmetry. apply app_nil_r.
  - inversion Hn as [| ? ? Hx Hr]; subst.
    rewrite dict_set_new by (apply Hacc; left; reflexivity).
    rewrite IH; [rewrite <- app_assoc; reflexivity | exact Hr |].
    intros y Hy. unfold keys. rewrite map_app, in_app_iff. simpl.
    intros [H | [H | []]].
    + apply (Hacc y); [right; exact Hy | exact H].
    + apply Hx. rewrite H. apply in_map. exact Hy.
Qed.

Lemma lower_columns_distinct cs :
  NoDup (map Py.lower cs) ->
  lower_columns cs = map (fun c => (Py.lower c, c)) cs.
Proof.
  intros H. unfold lower_columns.
  rewrite (fold_dict_set_new Py.lower (fun c => c)); [reflexivity | exact H |].
  intros x _ [].
Qed.

Lemma dict_get_first (key val : string -> string) l x :
  In x l -> (forall y, In y l -> key y = key x -> val y = val x) ->
  dict_get (map (fun c => (key c, val c)) l) (key x) = Some (val x).
Proof.
  induction l as [| y r IH]; simpl; [tauto |].
  intros Hin Hsame. destruct (key y =? key x)%string eqn:E.
  - apply String.eqb_eq in E. rewrite (Hsame y (or_introl eq_refl) E). reflexivity.
  - apply IH.
    + destruct Hin as [-> | H]; [rewrite String.eqb_refl in E; discriminate | exact H].
    + intros z Hz. apply Hsame. right. exact Hz.
Qed.

Lemma NoDup_map_inj {A B} (f : A -> B) l x y :
  NoDup (map f l) -> In x l -> In y l -> f x = f y -> x = y.
Proof.
  induction l as [| z r IH]; simpl; [tauto |].
  intros Hn Hx Hy E. inversion Hn as [| ? ? Hz Hr]; subst.
  destruct Hx as [-> | Hx], Hy as [-> | Hy]; auto.
  - exfalso. apply Hz. rewrite E. apply in_map. exact Hy.
  - exfalso. apply Hz. rewrite <- E. apply in_map. exact Hx.
Qed.

Lemma NoDup_of_map {A B} (f : A -> B) l : NoDup (map f l) -> NoDup l.
Proof.
  induction l as [| z r IH]; simpl; intros H; [constructor |].
  inversion H as [| ? ? Hz Hr]; subst. constructor; [| auto].
  intros Hin. apply Hz. apply in_map. exact Hin.
Qed.

Lemma renaming_distinct cs :
  NoDup (map Py.lower cs) ->
  renaming (map (fun c => (Py.lower c, c)) cs) = map (fun c => (c, Py.lower c)) cs.
Proof.
  intros H. unfold renaming, keys.
  replace (map fst (map (fun c => (Py.lower c, c)) cs)) with (map Py.lower cs)
    by (rewrite map_map; reflexivity).
  set (cols := map (fun c => (Py.lower c, c)) cs).
  assert (forall l acc,
            (forall x, In x l -> In x cs) -> NoDup l ->
            (forall x, In x l -> ~ In x (keys acc)) ->
            fold_left (fun d c => dict_set d (match dict_get cols c with
                                              | Some v => v
                                              | None => c
                                              end) c)
                      (map Py.lower l) acc
            = (acc ++ map (fun c => (c, Py.lower c)) l)%list) as Hfold.
  { induction l as [| x r IH]; intros acc Hsub Hn Hacc; simpl.
    - symmetry. apply app_nil_r.
    - assert (dict_get cols (Py.lower x) = Some x) as ->.
      { apply (dict_get_first Py.lower (fun c => c) cs x).
        - apply Hsub. left. reflexivity.
        - intros y Hy E. apply (NoDup_map_inj Py.lower cs y x H Hy); [| exact E].
          apply Hsub. left. reflexivity. }
      inversion Hn as [| ? ? Hx Hr]; subst.
      rewrite dict_set_new by (apply Hacc; left; reflexivity).
      rewrite IH; [rewrite <- app_assoc; reflexivity | | exact Hr |].
      + intros y Hy. apply Hsub. right. exact Hy.
      + intros y Hy. unfold keys. rewrite map_app, in_app_iff. simpl.
        intros [Hin | [Hin | []]].
        * apply (Hacc y); [right; exact Hy | exact Hin].
        * subst. contradiction. }
  rewrite (Hfold cs []); [reflexivity | auto | | intros x _ []].
  eapply NoDup_of_map; eauto.
Qed.

Lemma rename_distinct df :
  NoDup (map Py.lower (df_columns df)) ->
  rename (renaming (lower_columns (df_columns df))) df = lower_header df.
Proof.
  intros H. rewrite (lower_columns_distinct _ H), (renaming_distinct _ H).
  unfold rename, lower_header. f_equal.
  apply map_ext_in. intros c Hc.
  rewrite (dict_get_first (fun c => c) Py.lower (df_columns df) c Hc);
    [reflexivity |].
  intros y _ ->. reflexivity.
Qed.

Lemma lower_header_distinct df :
  NoDup (map Py.lower (df_columns df)) ->
  NoDup (map Py.lower (df_columns (lower_header df))).
Proof.
  intros H. unfold lower_header. cbn [df_columns]. rewrite map_map.
  rewrite (map_ext _ Py.lower lower_idem). exact H.
Qed.

Lemma lower_header_twice df : lower_header (lower_header df) = lower_header df.
Proof.
  unfold lower_header. cbn [df_columns df_rows]. rewrite map_map.
  rewrite (map_ext _ Py.lower lower_idem). reflexivity.
Qed.

(** X17. The columns of an upload are matched without regard to case: when no
    two of them differ by case only, each of the three imports does on the
    file what it does on the same file with its header in lower case. *)
Theorem import_ignores_header_case series_str u df today d :
  NoDup (map Py.lower (df_columns df)) ->
  import_file series_str u df today d
  = import_file series_str u (lower_header df) today d.
Proof.
  intros H.
  pose proof (rename_distinct df H) as E1.
  pose proof (rename_distinct _ (lower_header_distinct df H)) as E2.
  rewrite lower_header_twice in E2.
  assert (keys (lower_columns (df_columns (lower_header df)))
          = keys (lower_columns (df_columns df))) as K.
  { rewrite (lower_columns_distinct _ H),
            (lower_columns_distinct _ (lower_header_distinct df H)).
    unfold keys, lower_header. cbn [df_columns]. rewrite !map_map. cbn [fst].
    apply map_ext. intros c. apply lower_idem. }
  destruct u; cbn [import_file].
  - unfold import_books. cbv zeta. rewrite K, E1, E2. reflexivity.
  - unfold import_members. cbv zeta. rewrite K, E1, E2. reflexivity.
  - unfold import_locations. cbv zeta. rewrite K, E1, E2. reflexivity.
Qed.

(** X17 on the locations file, whose header is NAME and Description. *)
Lemma import_ignores_header_case_witness :
  import_file (fun _ => "") ULocations three_locations_file "2026-11-03" small_library
  = import_file (fun _ => "") ULocations
      (mkDF ["name"; "description"] (df_rows three_locations_file))
      "2026-11-03" small_library.
Proof.
  apply (import_ignores_header_case (fun _ => "") ULocations three_locations_file).
  simpl. constructor; [simpl; intros [H | []]; discriminate H |].
  constructor; [intros [] | constructor].
Defined.

(** ** Export *)












(** ** Seeding any number of compartments *)












(** ** Pages that only read *)

Lemma only_reads_refl today d : only_reads today d d [].
Proof. split; [reflexivity | constructor]. Qed.

Lemma only_reads_trans today d d1 d2 t1 t2 :
  only_reads today d d1 t1 -> only_reads today d1 d2 t2 ->
  only_reads today d d2 (t1 ++ t2).
Proof.
  intros [-> A] [-> B]. split; [reflexivity | apply Forall_app; split; assumption].
Qed.

Lemma query_stmt sql :
  In sql queries ->
  parse_sql sql = None \/ exists st, parse_sql sql = Some st /\ reading st = true.
Proof.
  intros H. unfold queries in H. simpl in H.
  repeat (destruct H as [<- | H];
          [first [ left; vm_compute; reflexivity
                 | right; eexists; split; vm_compute; reflexivity ] |]).
  destruct H.
Qed.

Lemma exec_stmt_reading today fk st params d d' c :
  reading st = true -> exec_stmt today fk st params d = inr (d', c) -> d' = d.
Proof.
  intros Hr H.
  destruct st; try discriminate Hr;
    destruct params as [| p1 [| p2 ps]];
    cbn [exec_stmt] in H; try discriminate H;
    unfold done, selected in H;
    try (destruct (not_readable _ d); [discriminate |]);
    injection H as <- _; reflexivity.
Qed.

Lemma only_reads_execute con sql params :
  In sql queries -> sat only_reads (execute con sql params).
Proof.
  intros Hin today d. unfold sat_at, execute, sqlite_execute.
  assert (Forall reads [Submitted sql params]) as Ht
      by (constructor; [exact Hin | constructor]).
  destruct (query_stmt sql Hin) as [-> | (st & -> & Hr)]; out.
  - split; [reflexivity | exact Ht].
  - destruct (exec_stmt today (foreign_keys con) st params d) as [e | [d' c]] eqn:He;
      out; (split; [| exact Ht]); [reflexivity |].
    eapply exec_stmt_reading; eauto.
Qed.

Lemma only_reads_emit e : reads e -> sat only_reads (emit e).
Proof.
  intros H today d. unfold sat_at. simpl.
  split; [reflexivity | constructor; [exact H | constructor]].
Qed.

Ltac query := unfold queries; simpl; tauto.

Ltac reads_step :=
  match goal with
  | |- sat _ (bind _ _) => apply (sat_bind _ only_reads_trans); [ | intros ]
  | |- sat _ (ret _) => apply (sat_ret _ only_reads_refl)
  | |- sat _ (raise _) => apply (sat_raise _ only_reads_refl)
  | |- sat _ (when false _) => cbn [when]
  | |- sat _ (when (false && _) _) => cbn [andb when]
  | |- sat _ (when _ _) => apply (sat_when _ only_reads_refl)
  | |- sat _ (execute _ _ _) => apply only_reads_execute; query
  | |- sat _ (emit (Submitted _ _)) => apply only_reads_emit; query
  | |- sat _ (emit _) => apply only_reads_emit; exact I
  | |- sat _ (st_info _) => apply only_reads_emit; exact I
  | |- sat _ connect => apply (sat_ret _ only_reads_refl)
  | |- sat _ get_conn => unfold get_conn
  | |- sat _ (fetch_df _ _) => unfold fetch_df
  | |- sat _ (fetch_df_shown _ _) => unfold fetch_df_shown
  | |- sat _ (match ?x with _ => _ end) => destruct x
  | |- sat _ (let _ := _ in _) => cbv zeta
  end.

Lemma only_reads_select_book k : sat only_reads (select_book k).
Proof. unfold select_book. repeat reads_step. Qed.

Lemma only_reads_select_member k : sat only_reads (select_member k).
Proof. unfold select_member. repeat reads_step. Qed.

Lemma only_reads_select_location k b : sat only_reads (select_location k b).
Proof. unfold select_location. repeat reads_step. Qed.

Lemma only_reads_issue_return b m due c :
  sat only_reads (page_issue_return b m due false c false).
Proof.
  unfold page_issue_return.
  apply (sat_bind _ only_reads_trans); [apply only_reads_select_book | intros book].
  apply (sat_bind _ only_reads_trans); [apply only_reads_select_member | intros member].
  repeat reads_step.
Qed.

Lemma only_reads_show series_str p :
  browsing p = true -> sat only_reads (show series_str p).
Proof.
  destruct p; cbn [show browsing]; intros H.
  - unfold page_dashboard. repeat reads_step.
  - apply andb_true_iff in H. destruct H as [H1 H2].
    apply negb_true_iff in H1, H2. subst. apply only_reads_issue_return.
  - apply negb_true_iff in H. subst. unfold page_books.
    apply (sat_bind _ only_reads_trans); [apply only_reads_select_location | intros].
    repeat reads_step.
  - apply negb_true_iff in H. subst. unfold page_members. repeat reads_step.
  - apply negb_true_iff in H. subst. unfold page_locations. repeat reads_step.
  - repeat (apply andb_true_iff in H; destruct H as [H ?]).
    apply negb_true_iff in H. subst.
    destruct up_books, up_members, up_locations; try discriminate.
    unfold page_import_export, export. cbn [import_books import_members import_locations].
    repeat reads_step.
Qed.

(** X7. Showing a page without pressing a button of a form and without
    uploading a file changes nothing: the store is what it was, the export
    buttons included, and every statement submitted is the PRAGMA or a
    SELECT. *)
Theorem browsing_changes_nothing series_str p today d :
  browsing p = true ->
  store (show series_str p today d) = d
  /\ Forall reads (trace (show series_str p today d)).
Proof. intros H. exact (only_reads_show series_str p H today d). Qed.

(** X7 on the page of issues and returns, with no button pressed. *)
Lemma browsing_changes_nothing_witness :
  store (show (fun _ => "") (IssueReturn 0 0 None false 0 false) "2026-11-03"
           library_with_return) = library_with_return
  /\ Forall reads (trace (show (fun _ => "") (IssueReturn 0 0 None false 0 false)
                            "2026-11-03" library_with_return)).
Proof.
  apply (browsing_changes_nothing (fun _ => "") (IssueReturn 0 0 None false 0 false)).
  reflexivity.
Defined.

(** ** The page of issues and returns *)

Lemma trace_bind_left {A B} (m : M A) (k : A -> M B) today d e :
  In e (trace (m today d)) -> In e (trace (bind m k today d)).
Proof.
  intros H. rewrite bind_out. destruct (result (m today d)); out; [exact H |].
  apply in_or_app. left. exact H.
Qed.

Lemma trace_bind_right {A B} (m : M A) (k : A -> M B) today d a e :
  result (m today d) = inr a ->
  In e (trace (k a today (store (m today d)))) ->
  In e (trace (bind m k today d)).
Proof.
  intros Hr H. rewrite bind_out, Hr. out. apply in_or_app. right. exact H.
Qed.

Lemma select_book_returns k today d :
  is_table "books" d = true ->
  exists r t, select_book k today d = mkOut (inr r) d t
              /\ (books d = [] -> r = None).
Proof.
  intros Ht. destruct (books d) as [| b l] eqn:Hb.
  - rewrite (select_book_empty k today d Ht Hb). eauto.
  - destruct (select_book_picks k today d Ht) as (i & id & title & a & _ & _ & _ & ->).
    + rewrite Hb. discriminate.
    + eexists. eexists. split; [reflexivity | discriminate].
Qed.

Lemma select_member_returns k today d :
  is_table "members" d = true ->
  exists r t, select_member k today d = mkOut (inr r) d t
              /\ (members d = [] -> r = None).
Proof.
  intros Ht. destruct (members d) as [| b l] eqn:Hb.
  - rewrite (select_member_empty k today d Ht Hb). eauto.
  - destruct (select_member_picks k today d Ht) as (i & id & name & _ & _ & _ & ->).
    + rewrite Hb. discriminate.
    + eexists. eexists. split; [reflexivity | discriminate].
Qed.

Lemma issue_unavailable bk mk due ck mark today d :
  is_table "books" d = true -> is_table "members" d = true ->
  books d = [] \/ members d = [] ->
  page_issue_return bk mk due true ck mark today d
  = page_issue_return bk mk due false ck mark today d.
Proof.
  intros Hb Hm Hnone. unfold page_issue_return.
  destruct (select_book_returns bk today d Hb) as (book & tb & Eb & Nb).
  destruct (select_member_returns mk today d Hm) as (member & tm & Em & Nm).
  rewrite !(bind_out (select_book bk)), Eb. out.
  rewrite !(bind_out (select_member mk)), Em. out.
  destruct Hnone as [H | H].
  - rewrite (Nb H). reflexivity.
  - rewrite (Nm H). destruct book as [[? ?] |]; reflexivity.
Qed.

(** X10. Without a book or without a member to select, on a store that has
    both tables, the Issue button does nothing: the store is left as it was,
    no INSERT is submitted, and the page shows the hint for the empty list. *)
Theorem issue_needs_selection bk mk due ck today d :
  is_table "books" d = true -> is_table "members" d = true ->
  books d = [] \/ members d = [] ->
  let o := page_issue_return bk mk due true ck false today d in
  store o = d
  /\ Forall reads (trace o)
  /\ (books d = [] ->
      In (Info "No books yet. Import or add some on the **Books** page.") (trace o))
  /\ (members d = [] ->
      In (Info "No members yet. Import or add some on the **Members** page.")
         (trace o)).
Proof.
  intros Hb Hm Hnone. cbv zeta.
  rewrite (issue_unavailable _ _ _ _ _ _ _ Hb Hm Hnone).
  destruct (only_reads_issue_return bk mk due ck today d) as [A B].
  split; [exact A |]. split; [exact B |].
  unfold page_issue_return. split.
  - intros He. apply trace_bind_left.
    rewrite (select_book_empty bk today d Hb He). simpl. tauto.
  - intros He.
    destruct (select_book_returns bk today d Hb) as (book & tb & Eb & _).
    apply (trace_bind_right _ _ _ _ book); [rewrite Eb; reflexivity |].
    rewrite Eb. out. apply trace_bind_left.
    rewrite (select_member_empty mk today d Hm He). simpl. tauto.
Qed.

(** X10 on a library without any row. *)
Lemma issue_needs_selection_witness :
  let o := page_issue_return 0 0 None true 0 false "2026-11-03" empty_library in
  store o = empty_library
  /\ Forall reads (trace o)
  /\ In (Info "No books yet. Import or add some on the **Books** page.") (trace o).
Proof.
  destruct (issue_needs_selection 0 0 None 0 "2026-11-03" empty_library
              eq_refl eq_refl (or_introl eq_refl)) as (A & B & C & _).
  split; [exact A |]. split; [exact B | exact (C eq_refl)].
Defined.









(** ** The repair button *)

Lemma init_db_trace today d : Forall submitted (trace (init_db today d)).
Proof.
  unfold init_db.
  run_with get_conn_eq.
  run_execute (CreateTable "books").
  destruct (create_table "books" d) as [e | d1]; out; [repeat constructor |].
  run_execute (CreateTable "members").
  destruct (create_table "members" d1) as [e | d2]; out; [repeat constructor |].
  run_execute (CreateTable "locations").
  destruct (create_table "locations" d2) as [e | d3]; out; [repeat constructor |].
  run_with ensure_is_table_eq.
  destruct (dropped_kind d3) as [k |]; out.
  - destruct (drop _ _ d3) as [e | d4]; out; [repeat constructor |].
    run_execute CreateTransactions.
    destruct (create_transactions_fails d4) as [e ->]. out. repeat constructor.
  - run_execute CreateTransactions.
    destruct (create_transactions_fails d3) as [e ->]. out. repeat constructor.
Qed.

(** X3. The repair button never completes: [page_import_export] with the
    button pressed fails where [init_db] fails, whatever else was asked of the
    page in that run. Nothing is seeded, imported or offered for download, and
    the message Repair done. is never shown. *)
Theorem repair_never_completes series_str up_books up_members up_locations
    export_books export_members export_locations today d :
  let o := page_import_export series_str true up_books up_members up_locations
             export_books export_members export_locations today d in
  (exists e, result o = inl e)
  /\ store o = store (init_db today d)
  /\ trace o = trace (init_db today d)
  /\ Forall submitted (trace o)
  /\ ~ In (Success "Repair done.") (trace o).
Proof.
  cbv zeta. pose proof (init_db_trace today d) as Ht.
  destruct (init_db_eq today d) as (e & t & E).
  unfold page_import_export. cbn [when].
  rewrite bind_out, bind_out, E. out. rewrite E in Ht. out.
  split; [eauto |]. split; [reflexivity |]. split; [reflexivity |].
  split; [exact Ht |].
  intros H. rewrite Forall_forall in Ht. exact (Ht _ H).
Qed.

(** ** The names of the locations *)

Lemma location_names_app d l :
  flat_map (fun l => match loc_name l with Some s => [s] | None => [] end)
           (locations d ++ [l])
  = (location_names d ++ match loc_name l with Some s => [s] | None => [] end)%list.
Proof. unfold location_names. rewrite flat_map_app. simpl. rewrite app_nil_r. reflexivity. Qed.

Lemma name_free s rows :
  name_taken (Some s) rows = false ->
  ~ In s (flat_map (fun l => match loc_name l with Some s => [s] | None => [] end) rows).
Proof.
  induction rows as [| l r IH]; simpl; [tauto |].
  intros H. apply orb_false_iff in H. destruct H as [H1 H2].
  rewrite in_app_iff. intros [Hin | Hin]; [| exact (IH H2 Hin)].
  destruct (loc_name l) as [s' |]; [| destruct Hin].
  destruct Hin as [-> | []]. simpl in H1. rewrite String.eqb_refl in H1. discriminate.
Qed.

Lemma names_unique_step today d d' t :
  (locations d' = locations d
   \/ exists l, locations d' = (locations d ++ [l])%list
                /\ name_taken (loc_name l) (locations d) = false) ->
  names_unique today d d' t.
Proof.
  unfold names_unique, location_names at 2. intros [-> | (l & -> & Hfree)] H; [exact H |].
  rewrite location_names_app.
  destruct (loc_name l) as [s |]; [| rewrite app_nil_r; exact H].
  apply NoDup_app; [exact H | constructor; [intros [] | constructor] |].
  intros x Hx [<- | []]. exact (name_free _ _ Hfree Hx).
Qed.

Lemma exec_stmt_locations today fk st params d d' c :
  issued st = true ->
  exec_stmt today fk st params d = inr (d', c) ->
  locations d' = locations d
  \/ exists l, locations d' = (locations d ++ [l])%list
               /\ name_taken (loc_name l) (locations d) = false.
Proof.
  intros Hi H.
  destruct st; try discriminate Hi;
    destruct params as [| p1 [| p2 [| p3 [| p4 [| p5 ps]]]]];
    cbn [exec_stmt] in H; try discriminate H;
    unfold done, inserted, selected in H;
    try (destruct (not_readable _ d); [discriminate |]; injection H as <- _;
         left; reflexivity).
  - injection H as <- _. left. reflexivity.
  - destruct (create_table name d) as [e' | d1] eqn:Hc; [discriminate |].
    injection H as <- _.
    destruct (create_table_rows _ _ _ Hc) as (_ & _ & L & _). left. exact L.
  - destruct (create_transactions_fails d) as [e' E]. rewrite E in H. discriminate.
  - unfold create_index in H.
    destruct (resolve tbl d) as [o |]; [| discriminate].
    destruct (kind_eqb (o_type o) KView); [discriminate |].
    destruct (resolve name d); [discriminate |].
    destruct (has_index name d); injection H as <- _; left; reflexivity.
  - unfold create_books_key in H.
    destruct (resolve "books" d) as [o |]; [| discriminate].
    destruct (kind_eqb (o_type o) KView); [discriminate |].
    destruct (resolve books_key d); [discriminate |].
    destruct (has_index books_key d); [injection H as <- _; left; reflexivity |].
    destruct (duplicate_keys (books d)); [discriminate |].
    injection H as <- _; left; reflexivity.
  - unfold insert_location in H. destruct (not_writable "locations" d); [discriminate |].
    destruct (name_taken (text_of p1) (locations d)) eqn:Hn; injection H as <- _;
      [left; reflexivity |].
    right. eexists. split; [reflexivity | exact Hn].
  - unfold insert_book in H. destruct (not_writable "books" d); [discriminate |].
    destruct (has_index books_key d && key_taken _ _ _);
      [destruct or_ignore; [| discriminate] |]; injection H as <- _;
      left; reflexivity.
  - unfold insert_member in H. destruct (not_writable "members" d); [discriminate |].
    injection H as <- _; left; reflexivity.
  - destruct (int_of p1) as [e1 | b]; [discriminate |].
    destruct (int_of p2) as [e2 | m]; [discriminate |].
    unfold insert_transaction in H.
    destruct (not_writable "transactions" d); [discriminate |].
    repeat match type of H with
           | context [if ?x then _ else _] => destruct x; try discriminate H
           end.
    injection H as <- _. left. reflexivity.
  - destruct (int_of p1) as [e1 | id]; [discriminate |].
    unfold mark_returned in H.
    destruct (not_writable "transactions" d); [discriminate |].
    injection H as <- _. left. reflexivity.
Qed.

Lemma names_unique_refl today d : names_unique today d d [].
Proof. intros H. exact H. Qed.

Lemma names_unique_trans today d d1 d2 t1 t2 :
  names_unique today d d1 t1 -> names_unique today d1 d2 t2 ->
  names_unique today d d2 (t1 ++ t2).
Proof. intros A B H. exact (B (A H)). Qed.

Lemma names_unique_execute con sql params :
  In sql SQL.literals -> sat names_unique (execute con sql params).
Proof.
  intros Hin today d. unfold sat_at, execute, sqlite_execute.
  destruct (literal_issued sql Hin) as [-> | (st & -> & Hi)]; out.
  - apply names_unique_step. left. reflexivity.
  - destruct (exec_stmt today (foreign_keys con) st params d) as [e | [d' c]] eqn:He;
      out; apply names_unique_step; [left; reflexivity |].
    eapply exec_stmt_locations; eauto.
Qed.

Lemma names_unique_emit e : sat names_unique (emit e).
Proof. intros today d. unfold sat_at. simpl. intros H. exact H. Qed.

Lemma names_unique_ensure : sat names_unique (_ensure_is_table "transactions").
Proof.
  intros today d. unfold sat_at. rewrite ensure_is_table_eq.
  destruct (dropped_kind d) as [k |] eqn:Hk;
    [| out; apply names_unique_step; left; reflexivity].
  destruct (drop _ _ d) as [e | d'] eqn:Hd; out;
    apply names_unique_step; left; [reflexivity |].
  rewrite (drop_kind k d d' (dropped_kind_not_table _ _ Hk) Hd). reflexivity.
Qed.

(** X6. The names of the locations stay pairwise distinct under every sequence
    of operations: the form, the import and the seeding all insert with OR
    IGNORE under the UNIQUE constraint, and nothing renames a location. *)
Theorem location_names_stay_unique series_str ops d :
  NoDup (location_names d) ->
  NoDup (location_names (run_all series_str ops d)).
Proof.
  revert d. induction ops as [| [today op] r IH]; intros d H; cbn [run_all];
    [exact H |].
  apply IH.
  exact (sat_any_op names_unique names_unique_refl names_unique_trans
           names_unique_execute names_unique_emit names_unique_ensure
           series_str op today d H).
Qed.

(** X6 on the small library, over a seeding, the form with a name that is
    there and a file that holds it too. *)
Lemma location_names_stay_unique_witness :
  let ops := [("2026-11-03", Seed 2);
              ("2026-11-03", Show (Locations "Compartment 1" "" true));
              ("2026-11-04",
               Show (ImportExport false None None (Some three_locations_file)
                       false false false))] in
  NoDup (location_names (run_all (fun _ => "") ops small_library)).
Proof.
  apply (location_names_stay_unique (fun _ => "")).
  unfold location_names. simpl. constructor; [intros [] | constructor].
Defined.

(** ** The Add Location form, in full *)



(** ** What a books import leaves *)







(** ** Issuing a book that is issued already *)






(** ** Relations that depend on what the pages bind *)

Lemma sat_at_bind {A B} (R : string -> DB -> DB -> list event -> Prop)
    (m : M A) (k : A -> M B) today d :
  (forall d d1 d2 t1 t2,
     R today d d1 t1 -> R today d1 d2 t2 -> R today d d2 (t1 ++ t2)%list) ->
  sat_at R m today d ->
  (forall a, result (m today d) = inr a -> sat_at R (k a) today (store (m today d))) ->
  sat_at R (bind m k) today d.
Proof.
  intros Htrans Hm Hk. unfold sat_at in *. rewrite bind_out.
  destruct (result (m today d)) as [e | a]; out; [exact Hm |].
  eapply Htrans; [exact Hm | apply Hk; reflexivity].
Qed.

Section FramePages.

Variable R : string -> DB -> DB -> list event -> Prop.
Hypothesis R_refl : forall today d, R today d d [].
Hypothesis R_trans : forall today d d1 d2 t1 t2,
  R today d d1 t1 -> R today d1 d2 t2 -> R today d d2 (t1 ++ t2).
Hypothesis R_execute : forall con sql params,
  In sql SQL.literals -> ~ chosen_among_rows sql -> sat R (execute con sql params).
Hypothesis R_emit : forall e, sat R (emit e).
Hypothesis R_ensure : sat R (_ensure_is_table "transactions").
Hypothesis R_issue : forall today d bid mid due text,
  existsb (Z.eqb bid) (map book_id (books d)) = true ->
  existsb (Z.eqb mid) (map member_id (members d)) = true ->
  sat_at R (_ <- run_sql SQL.insert_transaction [VInt bid; VInt mid; vtext due] ;;
            st_success text) today d.
Hypothesis R_mark : forall today d f chosen_k mark,
  result (fetch_df SQL.open_issues [] today d) = inr f ->
  sat_at R (mark_chosen (f_rows f) chosen_k mark) today
         (store (fetch_df SQL.open_issues [] today d)).

Ltac literal :=
  solve [ unfold SQL.literals; repeat (first [left; reflexivity | right])
        | intros [H | H]; discriminate H ].

Ltac pages_step :=
  match goal with
  | |- sat _ (bind _ _) => apply (sat_bind _ R_trans); [ | intros ]
  | |- sat _ (ret _) => apply (sat_ret _ R_refl)
  | |- sat _ (raise _) => apply (sat_raise _ R_refl)
  | |- sat _ (when _ _) => apply (sat_when _ R_refl)
  | |- sat _ (for_each _ _) => apply (sat_for_each _ R_refl R_trans); intros
  | |- sat _ (executemany _ _ _) => apply (sat_for_each _ R_refl R_trans); intros
  | |- sat _ (execute _ _ _) => apply R_execute; literal
  | |- sat _ (emit _) => apply R_emit
  | |- sat _ (st_success _) => apply R_emit
  | |- sat _ (st_error _) => apply R_emit
  | |- sat _ (st_info _) => apply R_emit
  | |- sat _ connect => apply (sat_ret _ R_refl)
  | |- sat _ get_conn => unfold get_conn
  | |- sat _ (fetch_df _ _) => unfold fetch_df
  | |- sat _ (fetch_df_shown _ _) => unfold fetch_df_shown
  | |- sat _ (_ensure_is_table "transactions") => apply R_ensure
  | |- sat _ (match ?x with _ => _ end) => destruct x
  | |- sat _ (let _ := _ in _) => cbv zeta
  end.

Lemma pages_init_db : sat R init_db.
Proof. unfold init_db. repeat pages_step. Qed.

Lemma pages_ensure_default_locations n : sat R (ensure_default_locations n).
Proof. unfold ensure_default_locations. repeat pages_step. Qed.

Lemma pages_select_book k : sat R (select_book k).
Proof. unfold select_book. repeat pages_step. Qed.

Lemma pages_select_member k : sat R (select_member k).
Proof. unfold select_member. repeat pages_step. Qed.

Lemma pages_select_location k b : sat R (select_location k b).
Proof. unfold select_location. repeat pages_step. Qed.

Lemma pages_import_books ss up : sat R (import_books ss up).
Proof. unfold import_books. repeat pages_step. Qed.

Lemma pages_import_members ss up : sat R (import_members ss up).
Proof. unfold import_members. repeat pages_step. Qed.

Lemma pages_import_locations ss up : sat R (import_locations ss up).
Proof. unfold import_locations. repeat pages_step. Qed.

Lemma pages_issue_return b m due issue c mark :
  sat R (page_issue_return b m due issue c mark).
Proof.
  intros today d. unfold page_issue_return.
  apply (sat_at_bind R _ _ today d (R_trans today)); [apply pages_select_book |].
  intros book Hbook. rewrite select_book_store.
  apply (sat_at_bind R _ _ today d (R_trans today)); [apply pages_select_member |].
  intros member Hmember. rewrite select_member_store.
  apply (sat_at_bind R _ _ today d (R_trans today)).
  { destruct book as [[bid bt] |]; [| apply (sat_ret _ R_refl)].
    destruct member as [[mid mn] |]; [| apply (sat_ret _ R_refl)].
    destruct issue; cbn [when]; [| apply (sat_ret _ R_refl)].
    apply R_issue.
    - apply (select_book_some _ _ _ _ _ Hbook).
    - apply (select_member_some _ _ _ _ _ Hmember). }
  intros _ _.
  generalize (store
    (match book with
     | Some (book_id, book_title) =>
         match member with
         | Some (member_id, member_name) =>
             when issue
               (_ <- run_sql SQL.insert_transaction
                       [VInt book_id; VInt member_id; vtext due] ;;
                st_success ("Issued **" ++ py_str book_title ++ "** to **"
                            ++ py_str member_name ++ "** ✅"))
         | None => ret tt
         end
     | None => ret tt
     end today d)).
  intros d0.
  apply (sat_at_bind R _ _ today d0 (R_trans today)).
  { assert (sat R (fetch_df SQL.open_issues [])) as Hq
        by (unfold fetch_df; repeat pages_step).
    apply Hq. }
  intros f Hf.
  pose proof (R_mark today d0 f c mark Hf) as Hm.
  set (d1 := store (fetch_df SQL.open_issues [] today d0)) in *.
  unfold sat_at in *. rewrite bind_out. unfold mark_chosen in Hm.
  destruct (f_rows f) as [| x l].
  - destruct (result (ret tt today d1)); out; [exact Hm |].
    eapply R_trans; [exact Hm |].
    assert (sat R (fetch_df_shown SQL.history [])) as Hh
        by (unfold fetch_df_shown; repeat pages_step).
    apply Hh.
  - match goal with
    | |- context [result (?blk today d1)] =>
        destruct (result (blk today d1)); out
    end; [exact Hm |].
    eapply R_trans; [exact Hm |].
    assert (sat R (fetch_df_shown SQL.history [])) as Hh
        by (unfold fetch_df_shown; repeat pages_step).
    apply Hh.
Qed.

Lemma pages_show ss p : sat R (show ss p).
Proof.
  destruct p; cbn [show].
  - unfold page_dashboard. repeat pages_step.
  - apply pages_issue_return.
  - unfold page_books.
    apply (sat_bind _ R_trans); [apply pages_select_location | intros].
    unfold run_sql. repeat pages_step.
  - unfold page_members, run_sql. repeat pages_step.
  - unfold page_locations, run_sql. repeat pages_step.
  - unfold page_import_export, export.
    repeat first [ apply pages_init_db | apply pages_ensure_default_locations
                 | apply pages_import_books | apply pages_import_members
                 | apply pages_import_locations | pages_step ].
Qed.

Lemma pages_run_op ss op : sat R (run_op ss op).
Proof.
  destruct op; cbn [run_op].
  - unfold main.
    repeat first [ apply pages_init_db | apply pages_ensure_default_locations
                 | apply pages_show | pages_step ].
  - apply pages_init_db.
  - apply pages_ensure_default_locations.
  - apply pages_show.
Qed.

End FramePages.

(** ** Transactions refer to rows that are there *)

Lemma references_more k ids ids' :
  (forall x, In x ids -> In x ids') ->
  references k ids = true -> references k ids' = true.
Proof.
  intros Hsub. destruct k as [k |]; simpl; [| reflexivity].
  rewrite !existsb_exists. intros (x & Hx & E). exists x. auto.
Qed.

Lemma extends_ids {A} (f : A -> Z) l l' x :
  extends l l' -> In x (map f l) -> In x (map f l').
Proof. intros [added ->] H. rewrite map_app. apply in_or_app. left. exact H. Qed.

Lemma referenced_more d d' t t' :
  extends (books d) (books d') -> extends (members d) (members d') ->
  issue_of t' = issue_of t -> referenced d t -> referenced d' t'.
Proof.
  intros Hb Hm E [A B]. unfold issue_of in E. injection E as _ Eb Em _ _.
  split.
  - rewrite Eb. apply (references_more _ _ _ (fun x => extends_ids book_id _ _ x Hb) A).
  - rewrite Em. apply (references_more _ _ _ (fun x => extends_ids member_id _ _ x Hm) B).
Qed.

Lemma no_dangling_step d d' :
  extends (books d) (books d') -> extends (members d) (members d') ->
  map issue_of (transactions d') = map issue_of (transactions d) ->
  no_dangling d -> no_dangling d'.
Proof.
  intros Hb Hm E H. unfold no_dangling in *. rewrite Forall_forall in *.
  intros t' Ht'.
  assert (In (issue_of t') (map issue_of (transactions d))) as Hin
      by (rewrite <- E; apply in_map; exact Ht').
  apply in_map_iff in Hin. destruct Hin as (t & Et & Ht).
  apply (referenced_more d d' t t' Hb Hm (eq_sym Et)). apply H. exact Ht.
Qed.

Lemma literal_other sql :
  In sql SQL.literals -> ~ chosen_among_rows sql ->
  parse_sql sql = None
  \/ exists st, parse_sql sql = Some st /\ issued st = true
                /\ st <> InsertTransaction /\ st <> MarkReturned.
Proof.
  intros H Hne. unfold SQL.literals in H. simpl in H.
  repeat (destruct H as [<- | H];
          [first [ left; vm_compute; reflexivity
                 | right; eexists; split; [vm_compute; reflexivity |];
                   split; [reflexivity |]; split; discriminate
                 | exfalso; apply Hne; left; reflexivity
                 | exfalso; apply Hne; right; reflexivity ] |]).
  destruct H.
Qed.

Lemma exec_stmt_keeps_issues today fk st params d d' c :
  issued st = true -> st <> InsertTransaction -> st <> MarkReturned ->
  exec_stmt today fk st params d = inr (d', c) ->
  extends (books d) (books d') /\ extends (members d) (members d')
  /\ transactions d' = transactions d.
Proof.
  intros Hi Hn1 Hn2 H.
  destruct (exec_stmt_append_only today fk st params d d' c [] Hi H) as (B & M & _ & _).
  split; [exact B |]. split; [exact M |].
  assert (quiet st = true) as Hq
      by (destruct st; try reflexivity; try discriminate Hi; congruence).
  destruct (exec_stmt_fresh today fk st params d d' c Hq H) as [E | (t & E & _)];
    [exact E |].
  exfalso. clear B M.
  destruct st; try discriminate Hi; try congruence;
    destruct params as [| p1 [| p2 [| p3 [| p4 [| p5 ps]]]]];
    cbn [exec_stmt] in H; try discriminate H;
    unfold done, inserted, selected, create_table, create_transactions,
      create_index, create_books_key, insert_location, insert_book,
      insert_member in H;
    repeat match type of H with
           | context [match ?x with _ => _ end] =>
               lazymatch x with
               | context [match _ with _ => _ end] => fail
               | _ => destruct x; try discriminate H
               end
           end;
    injection H as <- _; cbn [transactions with_master with_books with_members
                                with_locations] in E;
    apply (f_equal (@List.length Txn)) in E; rewrite length_app in E;
    simpl in E; lia.
Qed.

Lemma references_kept_refl today d : references_kept today d d [].
Proof. intros H. exact H. Qed.

Lemma references_kept_trans today d d1 d2 t1 t2 :
  references_kept today d d1 t1 -> references_kept today d1 d2 t2 ->
  references_kept today d d2 (t1 ++ t2).
Proof. intros A B H. exact (B (A H)). Qed.

Lemma references_kept_execute con sql params :
  In sql SQL.literals -> ~ chosen_among_rows sql ->
  sat references_kept (execute con sql params).
Proof.
  intros Hin Hne today d. unfold sat_at, execute, sqlite_execute.
  destruct (literal_other sql Hin Hne) as [-> | (st & -> & Hi & N1 & N2)]; out.
  - intros H. exact H.
  - destruct (exec_stmt today (foreign_keys con) st params d) as [e | [d' c]] eqn:He;
      out; [intros H; exact H |].
    destruct (exec_stmt_keeps_issues _ _ _ _ _ _ _ Hi N1 N2 He) as (B & M & T).
    unfold references_kept.
    apply no_dangling_step; [exact B | exact M | rewrite T; reflexivity].
Qed.

Lemma references_kept_emit e : sat references_kept (emit e).
Proof. intros today d. unfold sat_at. simpl. intros H. exact H. Qed.

Lemma references_kept_ensure : sat references_kept (_ensure_is_table "transactions").
Proof.
  intros today d. unfold sat_at. rewrite ensure_is_table_eq.
  destruct (dropped_kind d) as [k |] eqn:Hk; [| out; intros H; exact H].
  destruct (drop _ _ d) as [e | d'] eqn:Hd; out; [intros H; exact H |].
  rewrite (drop_kind k d d' (dropped_kind_not_table _ _ Hk) Hd).
  intros H. exact H.
Qed.

Lemma references_kept_issue today d bid mid due text :
  existsb (Z.eqb bid) (map book_id (books d)) = true ->
  existsb (Z.eqb mid) (map member_id (members d)) = true ->
  sat_at references_kept
    (_ <- run_sql SQL.insert_transaction [VInt bid; VInt mid; vtext due] ;;
     st_success text) today d.
Proof.
  intros Hb Hm. unfold sat_at. rewrite bind_out.
  rewrite (run_sql_eq _ _ _ _ InsertTransaction) by reflexivity.
  cbn [exec_stmt int_of]. unfold inserted, insert_transaction.
  destruct (not_writable "transactions" d); out; [intros H; exact H |].
  repeat match goal with
         | |- context [if ?x then _ else _] => destruct x; out
         end; try (intros H; exact H).
  unfold st_success, emit. out. unfold references_kept, no_dangling.
  cbn [transactions with_transactions]. intros H.
  apply Forall_app. split; [exact H |].
  constructor; [| constructor]. split; assumption.
Qed.

Lemma references_kept_mark today d f chosen_k mark :
  result (fetch_df SQL.open_issues [] today d) = inr f ->
  sat_at references_kept (mark_chosen (f_rows f) chosen_k mark) today
         (store (fetch_df SQL.open_issues [] today d)).
Proof.
  intros _. generalize (store (fetch_df SQL.open_issues [] today d)). intros d0.
  unfold mark_chosen. destruct (f_rows f) as [| x l]; [intros H; exact H |].
  cbv zeta. destruct mark; cbn [when]; [| intros H; exact H].
  destruct (selectbox VNull (column 0 (x :: l)) chosen_k) as [| id |];
    try (intros H; exact H).
  unfold sat_at. rewrite bind_out.
  rewrite (run_sql_eq _ _ _ _ MarkReturned) by reflexivity.
  cbn [exec_stmt int_of]. unfold done, mark_returned.
  destruct (not_writable "transactions" d0); out; [intros H; exact H |].
  unfold st_success, emit. out.
  unfold references_kept.
  apply no_dangling_step; try apply extends_refl.
  cbn [transactions with_transactions]. apply issue_of_marked.
Qed.

(** X24. Every transaction refers to a book and to a member that are there,
    after any sequence of operations on a store where that is so: an issue is
    recorded under the ids of a book and a member that the page has just read,
    and no book or member is ever removed. *)
Theorem references_stay_valid series_str ops d :
  no_dangling d -> no_dangling (run_all series_str ops d).
Proof.
  revert d. induction ops as [| [today op] r IH]; intros d H; cbn [run_all];
    [exact H |].
  apply IH.
  exact (pages_run_op references_kept references_kept_refl references_kept_trans
           references_kept_execute references_kept_emit references_kept_ensure
           references_kept_issue references_kept_mark series_str op today d H).
Qed.

(** X24 on two open transactions, over a new book, an issue of it and a
    marking. *)
Lemma references_stay_valid_witness :
  let ops := [("2026-11-05", Show (Books "Emma" "Austen" "" 0%nat true));
              ("2026-11-05", Show (IssueReturn 1 0 None true 0 false));
              ("2026-11-06", Show (IssueReturn 0 0 None false 0 true))] in
  no_dangling (run_all (fun _ => "") ops library_with_issues).
Proof.
  apply (references_stay_valid (fun _ => "")).
  unfold no_dangling. simpl. repeat constructor.
Defined.

(** ** What is added can be selected *)







(** ** A collision under a name in another case *)

Lemma named_exactly_none d :
  named_exactly "transactions" d = [] -> after_ensure d = d.
Proof.
  intros H. unfold after_ensure, dropped_kind, first_named.
  fold (named_exactly "transactions" d). rewrite H. reflexivity.
Qed.

Ltac no_drop :=
  let k := fresh "k" in
  let H := fresh "H" in
  intros k H;
  repeat (destruct H as [H | H]; [destruct k; vm_compute in H; discriminate H |]);
  destruct H.

(** X27. [init_db] looks for the colliding object under the exact name
    [transactions], while the engine resolves names without regard to case: a
    view whose name differs from [transactions] by case only is not dropped
    (no DROP statement is submitted at all), and [transactions] still resolves
    to it afterwards. *)
Theorem init_db_misses_other_case today d o :
  resolve "transactions" d = Some o ->
  o_type o = KView ->
  named_exactly "transactions" d = [] ->
  let d' := store (init_db today d) in
  resolve "transactions" d' = Some o
  /\ is_table "transactions" d' = false
  /\ In o (master d')
  /\ forall k, ~ In (Submitted (drop_sql k) []) (trace (init_db today d)).
Proof.
  intros Hr Hv Hn. cbv zeta.
  assert (resolve "transactions" (schema_after d) = Some o
          /\ named_exactly "transactions" (schema_after d) = []) as [A B].
  { unfold schema_after.
    destruct (create_table "books" d) as [e | d1] eqn:H1; [auto |].
    pose proof (resolve_create "transactions" _ _ _ H1 _ Hr) as R1.
    pose proof (named_exactly_create _ _ _ H1 eq_refl) as N1. rewrite Hn in N1.
    destruct (create_table "members" d1) as [e | d2] eqn:H2; [auto |].
    pose proof (resolve_create "transactions" _ _ _ H2 _ R1) as R2.
    pose proof (named_exactly_create _ _ _ H2 eq_refl) as N2. rewrite N1 in N2.
    destruct (create_table "locations" d2) as [e | d3] eqn:H3; [auto |].
    pose proof (resolve_create "transactions" _ _ _ H3 _ R2) as R3.
    pose proof (named_exactly_create _ _ _ H3 eq_refl) as N3. rewrite N2 in N3.
    rewrite (named_exactly_none _ N3). auto. }
  rewrite init_db_store.
  split; [exact A |].
  split; [unfold is_table; rewrite A, Hv; reflexivity |].
  split.
  { unfold resolve in A. apply find_some in A. tauto. }
  unfold init_db.
  run_with get_conn_eq.
  run_execute (CreateTable "books").
  destruct (create_table "books" d) as [e | d1] eqn:H1; out;
    [no_drop |].
  pose proof (named_exactly_create _ _ _ H1 eq_refl) as N1. rewrite Hn in N1.
  run_execute (CreateTable "members").
  destruct (create_table "members" d1) as [e | d2] eqn:H2; out;
    [no_drop |].
  pose proof (named_exactly_create _ _ _ H2 eq_refl) as N2. rewrite N1 in N2.
  run_execute (CreateTable "locations").
  destruct (create_table "locations" d2) as [e | d3] eqn:H3; out;
    [no_drop |].
  pose proof (named_exactly_create _ _ _ H3 eq_refl) as N3. rewrite N2 in N3.
  run_with ensure_is_table_eq.
  unfold dropped_kind, first_named. fold (named_exactly "transactions" d3).
  rewrite N3. cbn [hd_error]. out.
  run_execute CreateTransactions.
  destruct (create_transactions_fails d3) as [e ->]. out.
  no_drop.
Qed.

(** X27 on a store with a view named Transactions. *)
Lemma init_db_misses_other_case_witness :
  let d' := store (init_db "2026-11-03" store_with_view_in_capitals) in
  resolve "transactions" d' = Some (mkObj KView "Transactions" "Transactions")
  /\ is_table "transactions" d' = false.
Proof.
  destruct (init_db_misses_other_case "2026-11-03" store_with_view_in_capitals
              (mkObj KView "Transactions" "Transactions") eq_refl eq_refl eq_refl)
    as (A & B & _).
  split; assumption.
Defined.

(** ** The key of the books, once it is there *)












